(** * Mood-based song recommender: a shallow embedding of [app.py] and [st.py]

    The two front ends (console loop [app.py], Streamlit form [st.py]) share
    one class, [MusicRecommender].  This development embeds its methods
    [detect_mood], [search_songs_by_language], [_create_song] and
    [get_recommendations], together with the Python primitives they rely on,
    and proves the properties the specification states about them.

    Conventions.
    - A Python [str] is a [string]; its characters are read as the code
      points 0..255, on which [lower] acts as [str.lower] does.
    - A raised exception is a value [Raise e]; [exn] stands for instances of
      [Exception], the class both [except Exception] clauses catch.
    - A Python [dict] is an association list in insertion order, the first
      binding of a key being the one that counts.
    - The catalog client and the random generator are oracles of an
      environment [Env]; the effects of a call (random numbers drawn,
      searches issued, songs appended) are threaded through a state. *)

From Stdlib Require Import String Ascii List Bool Arith ZArith Lia.
From Stdlib Require Import Permutation.
Import ListNotations.

Open Scope string_scope.
Open Scope list_scope.
Open Scope nat_scope.

(* ================================================================== *)
(** ** Exceptions and results *)

Inductive exn : Type :=
| KeyError
| TypeError
| ValueError
| AttributeError
| IndexError
| ServiceError (msg : string).

Inductive result (A : Type) : Type :=
| Return (a : A)
| Raise (e : exn).

Arguments Return {A} a.
Arguments Raise {A} e.

Definition rbind {A B} (r : result A) (k : A -> result B) : result B :=
  match r with
  | Return a => k a
  | Raise e => Raise e
  end.

Declare Scope result_scope.
Delimit Scope result_scope with result.
Notation "'let?' x ':=' r 'in' k" := (rbind r (fun x => k))
  (at level 10, x name, r at level 100, k at level 200) : result_scope.

(* ================================================================== *)
(** ** Strings *)

Module Str.

(** [c.lower()] for one character: [A]..[Z] and the Latin-1 capitals
    (192..222 but the multiplication sign 215) move up by 32. *)
Definition lower_char (c : ascii) : ascii :=
  let n := nat_of_ascii c in
  if ((65 <=? n) && (n <=? 90))
     || ((192 <=? n) && (n <=? 222) && negb (n =? 215))
  then ascii_of_nat (n + 32)
  else c.

(** [s.lower()] *)
Fixpoint lower (s : string) : string :=
  match s with
  | EmptyString => EmptyString
  | String c s' => String (lower_char c) (lower s')
  end.

(** [s.startswith(p)] *)
Fixpoint startswith (p s : string) : bool :=
  match p, s with
  | EmptyString, _ => true
  | String _ _, EmptyString => false
  | String a p', String b s' => Ascii.eqb a b && startswith p' s'
  end.

(** [sub in s] on strings: [sub] occurs in [s] at some position. *)
Fixpoint contains (sub s : string) : bool :=
  startswith sub s
  || match s with
     | EmptyString => false
     | String _ s' => contains sub s'
     end.

(** [c in s] for one character. *)
Fixpoint has_char (c : ascii) (s : string) : bool :=
  match s with
  | EmptyString => false
  | String b s' => Ascii.eqb c b || has_char c s'
  end.

(** [sep.join(parts)] *)
Fixpoint join (sep : string) (parts : list string) : string :=
  match parts with
  | [] => ""
  | [p] => p
  | p :: rest => (p ++ sep ++ join sep rest)%string
  end.

(** [list(s)]: the one-character strings of [s]. *)
Fixpoint chars (s : string) : list string :=
  match s with
  | EmptyString => []
  | String c s' => String c EmptyString :: chars s'
  end.

End Str.

(* ================================================================== *)
(** ** Dictionaries in insertion order *)

Module Dict.

Definition t (V : Type) : Type := list (string * V).

(** [d.get(k)] *)
Fixpoint get {V} (d : t V) (k : string) : option V :=
  match d with
  | [] => None
  | (k', v) :: d' => if String.eqb k' k then Some v else get d' k
  end.

(** [k in d] *)
Definition mem {V} (d : t V) (k : string) : bool :=
  match get d k with Some _ => true | None => false end.

(** [d[k]] *)
Definition getitem {V} (d : t V) (k : string) : result V :=
  match get d k with
  | Some v => Return v
  | None => Raise KeyError
  end.

(** [d[k] = v]: an existing key keeps its place, a new one goes last. *)
Fixpoint set {V} (d : t V) (k : string) (v : V) : t V :=
  match d with
  | [] => [(k, v)]
  | (k', v') :: d' =>
      if String.eqb k' k then (k', v) :: d' else (k', v') :: set d' k v
  end.

(** [list(d)]: the keys, each once, in order of first insertion. *)
Fixpoint keys {V} (d : t V) : list string :=
  match d with
  | [] => []
  | (k, _) :: d' =>
      k :: filter (fun k' => negb (String.eqb k k')) (keys d')
  end.

(** [list(d.items())] *)
Definition items {V} (d : t V) : list (string * V) :=
  flat_map (fun k => match get d k with
                     | Some v => [(k, v)]
                     | None => []
                     end) (keys d).

(** [list(d.values())] *)
Definition values {V} (d : t V) : list V := map snd (items d).

(** [{k: v for k, v in kvs}] *)
Definition of_items {V} (kvs : list (string * V)) : t V :=
  fold_left (fun d kv => set d (fst kv) (snd kv)) kvs [].

End Dict.

(* ================================================================== *)
(** ** The mood classifier: [MusicRecommender.detect_mood] *)

(** The class is written out twice; the two copies differ in the keyword
    table of [detect_mood] only. *)
Inductive source_file : Type := app_py | st_py.

Definition happy_keywords : list string :=
  ["happy"; "joyful"; "excited"; "cheerful"; "good"; "great"; "fantastic"].

Definition sad_keywords (src : source_file) : list string :=
  match src with
  | app_py =>
      ["sad"; "down"; "depressed"; "melancholic"; "heartbroken";
       "I am not feeling good"; "upset"; "bad"; "lonely"; "stressed"]
  | st_py =>
      ["sad"; "down"; "depressed"; "melancholic"; "heartbroken";
       "not feeling good"; "upset"; "bad"; "lonely"; "stressed";
       "miserable"; "empty"; "blue"; "low"; "emotional"; "feeling down"]
  end.

(** The local [mood_keywords] of [detect_mood]. *)
Definition mood_keywords (src : source_file) : Dict.t (list string) :=
  [("happy", happy_keywords); ("sad", sad_keywords src)].

(** [sum(1 for keyword in keywords if keyword in user_mood)] *)
Definition keyword_score (keywords : list string) (user_mood : string) : nat :=
  list_sum
    (map (fun _ => 1)
         (filter (fun keyword => Str.contains keyword user_mood) keywords)).

(** ["not" in user_mood or "no" in user_mood] *)
Definition negated (user_mood : string) : bool :=
  Str.contains "not" user_mood || Str.contains "no" user_mood.

(** [any(xs)] on integers: some element is not zero. *)
Definition any (xs : list nat) : bool :=
  existsb (fun x => negb (x =? 0)) xs.

(** [max(d, key=d.get)]: the first key whose value is the largest; on an
    empty dictionary [max] raises [ValueError]. *)
Definition max_key (d : Dict.t nat) : result string :=
  match Dict.items d with
  | [] => Raise ValueError
  | kv :: rest =>
      Return
        (fst (fold_left
                (fun best kv' => if snd best <? snd kv' then kv' else best)
                rest kv))
  end.

Definition detect_mood (src : source_file) (user_mood : string)
  : result string :=
  let user_mood := Str.lower user_mood in
  let mood_scores :=
    Dict.of_items
      (map (fun '(mood, keywords) => (mood, keyword_score keywords user_mood))
           (Dict.items (mood_keywords src))) in
  let mood_scores :=
    if negated user_mood then Dict.set mood_scores "happy" 0
    else mood_scores in
  if any (Dict.values mood_scores) then max_key mood_scores
  else Return "happy".

(** The scores the specification speaks of, on the lower-cased text. *)
Definition happy_score (user_mood : string) : nat :=
  keyword_score happy_keywords (Str.lower user_mood).

Definition sad_score (src : source_file) (user_mood : string) : nat :=
  keyword_score (sad_keywords src) (Str.lower user_mood).

Definition has_negation (user_mood : string) : bool :=
  negated (Str.lower user_mood).

(** Some keyword of [keywords] occurs in the lower-cased text. *)
Definition mentions (keywords : list string) (user_mood : string) : bool :=
  existsb (fun keyword => Str.contains keyword (Str.lower user_mood)) keywords.

(** The sad keywords that [st.py] lists and [app.py] does not. *)
Definition added_keywords : list string :=
  filter (fun k => negb (existsb (String.eqb k) (sad_keywords app_py)))
         (sad_keywords st_py).

(** What one keyword adds to a score. *)
Definition hit (keyword text : string) : nat :=
  if Str.contains keyword text then 1 else 0.

(** The label as a function of the two scores once the negation marker has
    been taken into account: what [any] and [max] compute on a dictionary
    with the keys ["happy"] and ["sad"], in that order. *)
Definition label_of (happy sad : nat) : string :=
  if (happy =? 0) && (sad =? 0) then "happy"
  else if happy <? sad then "sad" else "happy".

(* ================================================================== *)
(** ** JSON values: what the catalog client hands back *)

(** The client returns the decoded response body: [None], a truth value,
    a number (integers here), a string, a list or a dictionary. *)
#[warnings="-register-all"]
Inductive json : Type :=
| JNull
| JBool (b : bool)
| JNum (n : Z)
| JStr (s : string)
| JList (l : list json)
| JDict (d : list (string * json)).

(** Python's operators on such values, with the exceptions they raise. *)
Module Py.

(** [bool(v)] *)
Definition truthy (v : json) : bool :=
  match v with
  | JNull => false
  | JBool b => b
  | JNum n => negb (n =? 0)%Z
  | JStr s => negb (String.eqb s "")
  | JList l => match l with [] => false | _ :: _ => true end
  | JDict d => match d with [] => false | _ :: _ => true end
  end.

(** [key in v] for a string [key] *)
Definition contains (key : string) (v : json) : result bool :=
  match v with
  | JDict d => Return (Dict.mem d key)
  | JList l =>
      Return (existsb (fun x => match x with
                                | JStr s => String.eqb s key
                                | _ => false
                                end) l)
  | JStr s => Return (Str.contains key s)
  | JNull | JBool _ | JNum _ => Raise TypeError
  end.

(** [v[key]] for a string [key] *)
Definition getitem (v : json) (key : string) : result json :=
  match v with
  | JDict d => Dict.getitem d key
  | _ => Raise TypeError
  end.

(** [v.get(key, default)] *)
Definition get (v : json) (key : string) (default : json) : result json :=
  match v with
  | JDict d => Return (match Dict.get d key with
                       | Some x => x
                       | None => default
                       end)
  | _ => Raise AttributeError
  end.

(** [len(v)] *)
Definition len (v : json) : result nat :=
  match v with
  | JList l => Return (List.length l)
  | JStr s => Return (String.length s)
  | JDict d => Return (List.length (Dict.keys d))
  | JNull | JBool _ | JNum _ => Raise TypeError
  end.

(** [list(v)]: what a [for] loop over [v] visits. *)
Definition iter (v : json) : result (list json) :=
  match v with
  | JList l => Return l
  | JStr s => Return (map JStr (Str.chars s))
  | JDict d => Return (map JStr (Dict.keys d))
  | JNull | JBool _ | JNum _ => Raise TypeError
  end.

(** [l[i] = v] on a list, [i] in range. *)
Fixpoint list_set {A} (l : list A) (i : nat) (v : A) : list A :=
  match l, i with
  | [], _ => []
  | _ :: l', 0 => v :: l'
  | a :: l', S i' => a :: list_set l' i' v
  end.

(** [x[i], x[j] = x[j], x[i]]: both reads, then the two writes.  A string
    cannot be written to, and a dictionary of the catalog has no integer
    key. *)
Definition swap (x : json) (i j : nat) : result json :=
  match x with
  | JList l =>
      match nth_error l j, nth_error l i with
      | Some a, Some b => Return (JList (list_set (list_set l i a) j b))
      | _, _ => Raise IndexError
      end
  | JStr s =>
      match String.get j s, String.get i s with
      | Some _, Some _ => Raise TypeError
      | _, _ => Raise IndexError
      end
  | JDict _ => Raise KeyError
  | JNull | JBool _ | JNum _ => Raise TypeError
  end.

(** [l[:n]] *)
Definition slice_to {A} (l : list A) (n : Z) : list A :=
  if (0 <=? n)%Z then firstn (Z.to_nat n) l
  else firstn (Z.to_nat (Z.of_nat (List.length l) + n)) l.

(** [sep.join(parts)]: every part has to be a string. *)
Fixpoint strings (parts : list json) : result (list string) :=
  match parts with
  | [] => Return []
  | JStr s :: rest =>
      match strings rest with
      | Return l => Return (s :: l)
      | Raise e => Raise e
      end
  | _ :: _ => Raise TypeError
  end.

Definition join (sep : string) (parts : list json) : result string :=
  match strings parts with
  | Return l => Return (Str.join sep l)
  | Raise e => Raise e
  end.

(** [[f(x) for x in xs]]: the first exception ends the comprehension. *)
Fixpoint comprehension {A B} (f : A -> result B) (xs : list A)
  : result (list B) :=
  match xs with
  | [] => Return []
  | x :: rest =>
      match f x with
      | Return y =>
          match comprehension f rest with
          | Return ys => Return (y :: ys)
          | Raise e => Raise e
          end
      | Raise e => Raise e
      end
  end.

End Py.

(* ================================================================== *)
(** ** Songs and the configuration table *)

Module Song.

(** The dataclass [Song].  The annotations say [str], but nothing checks
    them: a field copied from a track holds whatever the track holds. *)
Record t : Type := make {
  title : json;
  artist : string;
  mood : string;
  language : string;
  spotify_uri : json;
  spotify_url : json;
  preview_url : json
}.

End Song.

(** [self.mood_map] *)
Definition mood_map : Dict.t (Dict.t (Dict.t (list string))) :=
  [("happy",
    [("english",
      [("search_terms", ["happy"; "upbeat"; "dance"; "party"]);
       ("seed_genres", ["pop"; "dance"])]);
     ("hindi",
      [("search_terms", ["bollywood dance"; "hindi party"; "bollywood pop"]);
       ("seed_genres", ["pop"])])]);
   ("sad",
    [("english",
      [("search_terms",
        ["sad"; "melancholic"; "emotional"; "slow"; "heartbroken"]);
       ("seed_genres", ["acoustic"; "singer-songwriter"])]);
     ("hindi",
      [("search_terms",
        ["bollywood sad"; "hindi emotional"; "bollywood classical";
         "dard bhare gane"]);
       ("seed_genres", ["acoustic"; "ghazal"])])])].

(** [self.mood_map[mood][language]] *)
Definition mood_config (mood language : string)
  : result (Dict.t (list string)) :=
  (let? by_language := Dict.getitem mood_map mood in
   Dict.getitem by_language language)%result.

(** [mood_config["search_terms"]] for the pair: the phrases to search for. *)
Definition search_terms (mood language : string) : result (list string) :=
  (let? config := mood_config mood language in
   Dict.getitem config "search_terms")%result.

(** ["IN" if language == "hindi" else "US"] *)
Definition market_of (language : string) : string :=
  if String.eqb language "hindi" then "IN" else "US".

Definition _create_song (track : json) (mood language : string)
  : result Song.t :=
  (let? title := Py.getitem track "name" in
   let? artists := Py.getitem track "artists" in
   let? artists := Py.iter artists in
   let? names :=
     Py.comprehension (fun artist => Py.getitem artist "name") artists in
   let? artist := Py.join ", " names in
   let? spotify_uri := Py.getitem track "uri" in
   let? external_urls := Py.getitem track "external_urls" in
   let? spotify_url := Py.getitem external_urls "spotify" in
   let? preview_url := Py.get track "preview_url" (JStr "") in
   Return (Song.make title artist mood language
                     spotify_uri spotify_url preview_url))%result.

(** A track record as the specification takes it to be: a name and artist
    names that are strings and not empty, at least one artist, a uri, and
    a web address under [external_urls]. *)
Definition nonempty_str (v : json) : bool :=
  match v with
  | JStr s => negb (String.eqb s "")
  | _ => false
  end.

Definition named (v : json) : bool :=
  match v with
  | JDict d => match Dict.get d "name" with
               | Some n => nonempty_str n
               | None => false
               end
  | _ => false
  end.

Definition well_formed (track : json) : bool :=
  match track with
  | JDict d =>
      match Dict.get d "name", Dict.get d "artists",
            Dict.get d "uri", Dict.get d "external_urls" with
      | Some name, Some (JList (a :: artists)),
        Some (JStr _), Some (JDict urls) =>
          nonempty_str name
          && forallb named (a :: artists)
          && match Dict.get urls "spotify" with
             | Some url => nonempty_str url
             | None => false
             end
      | _, _, _, _ => false
      end
  | _ => false
  end.

(* ================================================================== *)
(** ** The world outside: random numbers and the catalog *)

(** One call of [self.spotify.search], by its keyword arguments. *)
Module Call.

Record t : Type := make {
  q : string;
  type : string;
  market : string;
  limit : Z;
  offset : Z
}.

End Call.

(** The environment decides what the [k]-th random draw is and what the
    [k]-th search answers, given its arguments: a response, or an
    exception. *)
Record Env : Type := {
  random_source : nat -> nat;
  spotify_search : nat -> Call.t -> result json
}.

(** What a run has done so far: the local list [songs], how many random
    numbers were drawn, and the searches issued, oldest first. *)
Record State : Type := {
  songs : list Song.t;
  draws : nat;
  calls : list Call.t
}.

(** A command: from a state to a value or an exception, and a state.  A
    raised exception keeps the changes made before it. *)
Definition M (A : Type) : Type := State -> result A * State.

Definition ret {A} (a : A) : M A := fun st => (Return a, st).

Definition raise {A} (e : exn) : M A := fun st => (Raise e, st).

Definition bind {A B} (m : M A) (k : A -> M B) : M B :=
  fun st =>
    match m st with
    | (Return a, st') => k a st'
    | (Raise e, st') => (Raise e, st')
    end.

(** [try: body  except Exception as e: handler] *)
Definition try_except {A} (body : M A) (handler : exn -> M A) : M A :=
  fun st =>
    match body st with
    | (Return a, st') => (Return a, st')
    | (Raise e, st') => handler e st'
    end.

Definition lift {A} (r : result A) : M A := fun st => (r, st).

Declare Scope monad_scope.
Delimit Scope monad_scope with monad.
Notation "x <- m ;; k" := (bind m (fun x => k))
  (at level 61, m at next level, right associativity) : monad_scope.
Notation "m ;; k" := (bind m (fun _ => k))
  (at level 61, right associativity) : monad_scope.

Definition get_songs : M (list Song.t) := fun st => (Return (songs st), st).

Definition set_songs (l : list Song.t) : M unit :=
  fun st => (Return tt, {| songs := l; draws := draws st; calls := calls st |}).

(** [songs.append(song)] *)
Definition append_song (song : Song.t) : M unit :=
  fun st =>
    (Return tt,
     {| songs := songs st ++ [song]; draws := draws st; calls := calls st |}).

(** How the body of a loop ends. *)
Inductive flow : Type := Next | Continue.

Section Recommender.

Variable env : Env.

(** [random._randbelow(n)] *)
Definition randbelow (n : nat) : M nat :=
  fun st =>
    (Return (random_source env (draws st) mod n),
     {| songs := songs st; draws := S (draws st); calls := calls st |}).

(** [random.randint(a, b)] *)
Definition randint (a b : Z) : M Z :=
  (r <- randbelow (Z.to_nat (b - a + 1)) ;; ret (a + Z.of_nat r)%Z)%monad.

(** [self.spotify.search(q=.., type=.., market=.., limit=.., offset=..)] *)
Definition search (call : Call.t) : M json :=
  fun st =>
    (spotify_search env (List.length (calls st)) call,
     {| songs := songs st; draws := draws st; calls := calls st ++ [call] |}).

(** The loop of [random.shuffle] from index [i] down to 1. *)
Fixpoint shuffle_from (i : nat) (x : json) : M json :=
  match i with
  | 0 => ret x
  | S i' =>
      (j <- randbelow (i + 1) ;;
       x <- lift (Py.swap x i j) ;;
       shuffle_from i' x)%monad
  end.

(** [random.shuffle(x)]; the value returned is [x] after the call. *)
Definition shuffle (x : json) : M json :=
  (n <- lift (Py.len x) ;; shuffle_from (n - 1) x)%monad.

Section Search.

Variables (mood language : string) (num_songs : Z).

(** [for track in tracks: ...] *)
Fixpoint track_loop (tracks : list json) : M unit :=
  match tracks with
  | [] => ret tt
  | track :: rest =>
      (songs <- get_songs ;;
       if (num_songs <=? Z.of_nat (List.length songs))%Z then ret tt
       else
         song <- lift (_create_song track mood language) ;;
         append_song song ;;
         track_loop rest)%monad
  end.

(** [if results and 'tracks' in results and 'items' in results['tracks']] *)
Definition has_items (results : json) : result bool :=
  if Py.truthy results then
    (let? tracks_in := Py.contains "tracks" results in
     if tracks_in : bool then
       let? tracks := Py.getitem results "tracks" in
       Py.contains "items" tracks
     else Return false)%result
  else Return false.

(** The statements under the inner [try]. *)
Definition search_and_collect (query market : string) (offset : Z)
  : M unit :=
  (results <- search (Call.make query "track" market 10 offset) ;;
   ok <- lift (has_items results) ;;
   if ok : bool then
     tracks <- lift (let? tracks := Py.getitem results "tracks" in
                     Py.getitem tracks "items")%result ;;
     tracks <- shuffle tracks ;;
     tracks <- lift (Py.iter tracks) ;;
     track_loop tracks
   else ret tt)%monad.

(** [for search_term in mood_config["search_terms"]: ...] *)
Fixpoint phrase_loop (terms : list string) : M unit :=
  match terms with
  | [] => ret tt
  | search_term :: rest =>
      (let market := market_of language in
       offset <- randint 0 50 ;;
       let query := search_term in
       after <- try_except
                  (search_and_collect query market offset ;; ret Next)
                  (fun e => ret Continue) ;;
       match after with
       | Continue => phrase_loop rest
       | Next =>
           songs <- get_songs ;;
           if (num_songs <=? Z.of_nat (List.length songs))%Z then ret tt
           else phrase_loop rest
       end)%monad
  end.

Definition search_songs_by_language : M (list Song.t) :=
  try_except
    (set_songs [] ;;
     mood_config <- lift (mood_config mood language) ;;
     terms <- lift (Dict.getitem mood_config "search_terms") ;;
     phrase_loop terms ;;
     songs <- get_songs ;;
     ret (Py.slice_to songs num_songs))%monad
    (fun e => ret []).

Definition get_recommendations : M (list Song.t) :=
  search_songs_by_language.

End Search.

End Recommender.

(** A fresh run: nothing collected, drawn or searched yet. *)
Definition start : State := {| songs := []; draws := 0; calls := [] |}.

(** The vocabulary of the statements about a run. *)

(** Every search the environment is asked for raises. *)
Definition all_searches_fail (env : Env) : Prop :=
  forall k call, exists e, spotify_search env k call = Raise e.

(** [query] is one of the phrases configured for the pair. *)
Definition planned (mood language query : string) : Prop :=
  exists terms, search_terms mood language = Return terms /\ In query terms.

(** What a search of the aggregator has to look like: the market of the
    language, and a phrase configured for the pair. *)
Definition on_plan (mood language : string) (call : Call.t) : Prop :=
  Call.market call = market_of language
  /\ planned mood language (Call.q call).

(** The searches issued between two states of a run. *)
Definition issued (before after : State) : list Call.t :=
  skipn (List.length (calls before)) (calls after).

(** The search the aggregator issues for a phrase and a drawn offset. *)
Definition call_for (language query : string) (offset : Z) : Call.t :=
  Call.make query "track" (market_of language) 10 offset.

(** The state after a failed search for [query]: one number drawn, one
    call logged, no song added. *)
Definition after_failed_search (env : Env) (language query : string)
  (st : State) : State :=
  {| songs := songs st;
     draws := S (draws st);
     calls := calls st
              ++ [call_for language query
                    (0 + Z.of_nat (random_source env (draws st) mod 51))] |}.

(** Two environments to run the aggregator in: a catalog that is down, and
    one that answers every search with the same three tracks, the second
    of them with no usable fields. *)
Definition catalog_down : Env :=
  {| random_source := fun k => 7 * k + 3;
     spotify_search := fun _ _ => Raise (ServiceError "connection timed out") |}.

Definition sample_track (name : string) : json :=
  JDict [("name", JStr name);
         ("artists", JList [JDict [("name", JStr "Asha Bhosle")];
                            JDict [("name", JStr "Kishore Kumar")]]);
         ("uri", JStr "spotify:track:4uLU6hMCjMI75M1A2tKUQC");
         ("external_urls",
          JDict [("spotify", JStr "https://open.spotify.com/track/4uLU6hMC")]);
         ("preview_url", JNull)].

Definition catalog_up : Env :=
  {| random_source := fun k => 7 * k + 3;
     spotify_search := fun _ call =>
       Return (JDict [("tracks",
                       JDict [("items",
                               JList [sample_track (Call.q call);
                                      JNull;
                                      sample_track "Yeh Dosti"])])]) |}.

(** An answer of the catalog that lists [tracks]. *)
Definition answer (tracks : list json) : json :=
  JDict [("tracks", JDict [("items", JList tracks)])].

(** A catalog that answers every search with the same four tracks. *)
Definition catalog_rich : Env :=
  {| random_source := fun k => 11 * k + 2;
     spotify_search := fun _ _ =>
       Return (answer [sample_track "Lag Ja Gale"; sample_track "Kal Ho Naa Ho";
                       sample_track "Tujhe Dekha To"; sample_track "Chaiyya Chaiyya"]) |}.

(** A catalog that lists one track twice in every answer. *)
Definition catalog_twice : Env :=
  {| random_source := fun k => 11 * k + 2;
     spotify_search := fun _ _ =>
       Return (answer [sample_track "Lag Ja Gale"; sample_track "Lag Ja Gale"]) |}.

(** [results['tracks']['items']] *)
Definition items_of (results : json) : result json :=
  (let? tracks := Py.getitem results "tracks" in
   Py.getitem tracks "items")%result.

(** The songs of the tracks of a list, in order, up to the first track
    [_create_song] raises on. *)
Fixpoint songs_until_failure (mood language : string) (tracks : list json)
  : list Song.t :=
  match tracks with
  | [] => []
  | track :: rest =>
      match _create_song track mood language with
      | Return song => song :: songs_until_failure mood language rest
      | Raise _ => []
      end
  end.

(** How many songs are still wanted. *)
Definition room (num_songs : Z) (songs : list Song.t) : nat :=
  Z.to_nat (num_songs - Z.of_nat (List.length songs)).

(** The fixed arguments of every search: tracks, ten at a time, from an
    offset between 0 and 50. *)
Definition well_parametrized (call : Call.t) : Prop :=
  Call.type call = "track" /\ Call.limit call = 10%Z
  /\ (0 <= Call.offset call <= 50)%Z.

(* ================================================================== *)
(** ** The console front end: [main] of [app.py] *)

(** Standard input is the list of the lines still to be read; [input]
    raises [EOFError] when none is left.  What the program writes is kept
    as a list of outputs, oldest first: a line printed from a literal or
    from strings is kept as its text, a line formatted from fields of a
    track (which may hold any value) as its arguments.  The two nested
    [while True] loops are one loop with a phase: each round reads one
    line, either for the mood or for the number of the language.  An
    interrupt from the keyboard is no part of this. *)
Module Console.

(** [int(s)] for a string: blanks around, an optional sign, then decimal
    digits, where single underscores may stand between digits; anything
    else raises [ValueError]. *)
Definition is_space (c : ascii) : bool :=
  let n := nat_of_ascii c in
  ((9 <=? n) && (n <=? 13)) || (n =? 32) || (n =? 133) || (n =? 160).

Definition is_digit (c : ascii) : bool :=
  let n := nat_of_ascii c in (48 <=? n) && (n <=? 57).

Fixpoint lstrip (cs : list ascii) : list ascii :=
  match cs with
  | c :: cs' => if is_space c then lstrip cs' else cs
  | [] => []
  end.

Definition strip (cs : list ascii) : list ascii :=
  rev (lstrip (rev (lstrip cs))).

Fixpoint digits (cs : list ascii) (acc : Z) (after_digit : bool)
  : option Z :=
  match cs with
  | [] => if after_digit then Some acc else None
  | c :: cs' =>
      if is_digit c
      then digits cs' (10 * acc + Z.of_nat (nat_of_ascii c - 48))%Z true
      else if Ascii.eqb c "_" && after_digit then digits cs' acc false
      else None
  end.

Definition int (s : string) : result Z :=
  let number :=
    match strip (list_ascii_of_string s) with
    | c :: cs =>
        if Ascii.eqb c "-" then option_map Z.opp (digits cs 0 false)
        else if Ascii.eqb c "+" then digits cs 0 false
        else digits (c :: cs) 0 false
    | [] => None
    end in
  match number with
  | Some n => Return n
  | None => Raise ValueError
  end.

(** What can be raised inside [main]: the end of the input, or one of
    the exceptions of the recommender. *)
Inductive error : Type :=
| EOFError
| Exn (e : exn).

Inductive output : Type :=
| Print (text : string)
| Input (prompt : string)
| PrintSetupError (e : exn)
| PrintSong (i : nat) (title : json) (artist : string)
| PrintListen (url : json)
| PrintPreview (url : json)
| PrintError (e : error).

Record t : Type := {
  shown : list output;
  world : State
}.

Definition print (o : output) (c : t) : t :=
  {| shown := shown c ++ [o]; world := world c |}.

Definition prints (os : list output) (c : t) : t :=
  {| shown := shown c ++ os; world := world c |}.

(** The newline of ["\n"]. *)
Definition nl : string := String "010" "".

Definition banner : string := "=== Spotify Music Recommendation System ===".

Definition mood_prompt : string :=
  nl ++ "How are you feeling? (or type 'quit' to exit): ".

Definition menu : list output :=
  [Print (nl ++ "Select language for recommendations:");
   Print "1) English";
   Print "2) Hindi"].

Definition number_prompt : string := "Enter number (1 or 2): ".

Definition found_header : string :=
  nl ++ "Here are some songs you might enjoy:".

Definition nothing_found : string :=
  nl ++ "Sorry, couldn't find recommendations. Please try again.".

(** ["\n" + "=" * 40] *)
Definition separator : string :=
  nl ++ string_of_list_ascii (repeat "="%char 40).

Definition remediation : string :=
  "Please check your Spotify credentials and internet connection.".

(** The lines of one song: title and artist, the link, and the preview
    link when there is one. *)
Definition show_song (i : nat) (song : Song.t) : list output :=
  [PrintSong i (Song.title song) (Song.artist song);
   PrintListen (Song.spotify_url song)]
  ++ (if Py.truthy (Song.preview_url song)
      then [PrintPreview (Song.preview_url song)]
      else []).

(** [for i, song in enumerate(recommendations, i): ...] *)
Fixpoint show_songs (i : nat) (recommendations : list Song.t)
  : list output :=
  match recommendations with
  | [] => []
  | song :: rest => show_song i song ++ show_songs (S i) rest
  end.

(** The rest of a round once the language is chosen: classify, search,
    show.  [None] means the round ended normally. *)
Definition turn (env : Env) (user_input : string) (lang_choice : Z) (c : t)
  : option error * t :=
  let language := if (lang_choice =? 1)%Z then "english" else "hindi" in
  match detect_mood app_py user_input with
  | Raise e => (Some (Exn e), c)
  | Return mood =>
      let c := print (Print (nl ++ "Detected mood: " ++ mood)) c in
      let c := print (Print "Searching for songs...") c in
      match get_recommendations env mood language 3 (world c) with
      | (Raise e, w) => (Some (Exn e), {| shown := shown c; world := w |})
      | (Return recommendations, w) =>
          let c := {| shown := shown c; world := w |} in
          let c :=
            match recommendations with
            | _ :: _ =>
                prints (Print found_header :: show_songs 1 recommendations) c
            | [] => print (Print nothing_found) c
            end in
          (None, print (Print separator) c)
      end
  end.

Inductive phase : Type :=
| AskMood
| AskNumber (user_input : string).

(** The loop of [main]; [None] means it was left by [break]. *)
Fixpoint loop (env : Env) (ph : phase) (stdin : list string) (c : t)
  {struct stdin} : option error * t :=
  match ph with
  | AskMood =>
      let c := print (Input mood_prompt) c in
      match stdin with
      | [] => (Some EOFError, c)
      | line :: rest =>
          let user_input := Str.lower line in
          if String.eqb user_input "quit" then (None, c)
          else loop env (AskNumber user_input) rest (prints menu c)
      end
  | AskNumber user_input =>
      let c := print (Input number_prompt) c in
      match stdin with
      | [] => (Some EOFError, c)
      | line :: rest =>
          match int line with
          | Return lang_choice =>
              if (lang_choice =? 1)%Z || (lang_choice =? 2)%Z then
                match turn env user_input lang_choice c with
                | (None, c) => loop env AskMood rest c
                | (Some e, c) => (Some e, c)
                end
              else
                loop env (AskNumber user_input) rest
                  (print (Print "Please enter 1 or 2.") c)
          | Raise ValueError =>
              loop env (AskNumber user_input) rest
                (print (Print "Please enter a valid number.") c)
          | Raise e => (Some (Exn e), c)
          end
      end
  end.

(** [main()], given whether the client could be set up
    ([initialize_spotify] prints and raises again when it could not). *)
Definition main (env : Env) (setup : result unit) (stdin : list string)
  : t :=
  let c := print (Print banner) {| shown := []; world := start |} in
  let '(raised, c) :=
    match setup with
    | Raise e => (Some (Exn e), print (PrintSetupError e) c)
    | Return _ => loop env AskMood stdin c
    end in
  match raised with
  | Some e => print (Print remediation) (print (PrintError e) c)
  | None => c
  end.

(** The vocabulary of the statements about a session. *)

Definition is_song (o : output) : bool :=
  match o with
  | PrintSong _ _ _ => true
  | _ => false
  end.


(** A search for one of the four pairs of the configuration table. *)
Definition in_table (call : Call.t) : Prop :=
  exists mood language,
    In mood ["happy"; "sad"] /\ In language ["english"; "hindi"]
    /\ on_plan mood language call.

End Console.

(* ================================================================== *)
(** ** The web front end: the page script of [st.py] *)

(** One execution of the script from the widgets on (the recommender
    exists by then).  The widgets hand back what the user did: the text
    of the box, whether each button was pressed, the language picked.
    What the recognizer does with the microphone is an outcome given
    from outside.  A line written from strings is kept as its text, a
    line formatted from fields of a track as its arguments. *)
Module Page.

(** What [get_voice_input] meets: the microphone or the capture raises
    (before or after "Listening..." is written), or the recognizer
    returns a text, does not understand, or cannot be reached. *)
Inductive recognition : Type :=
| CaptureFailed (listening : bool) (e : exn)
| Recognized (text : string)
| UnknownValueError
| RequestError (message : string).

Inductive output : Type :=
| Write (text : string)
| WriteSong (i : nat) (title : json) (artist : string)
| WriteLink (url : json).

(** The options of [st.radio]. *)
Inductive option_ : Type := English | Hindi.

Definition label (o : option_) : string :=
  match o with
  | English => "English"
  | Hindi => "Hindi"
  end.

Record widgets : Type := {
  text_input : string;
  send : bool;
  microphone : bool;
  radio : option_
}.

(** [get_voice_input()]: what it writes, and the text it returns or the
    exception that leaves it. *)
Definition get_voice_input (voice : recognition)
  : list output * result string :=
  match voice with
  | CaptureFailed false e => ([], Raise e)
  | CaptureFailed true e => ([Write "Listening..."], Raise e)
  | Recognized text => ([Write "Listening..."], Return text)
  | UnknownValueError =>
      ([Write "Listening..."],
       Return "Sorry, I didn't catch that. Could you repeat?")
  | RequestError message =>
      ([Write "Listening..."],
       Return ("Error with the speech recognition service: " ++ message)%string)
  end.

(** [for i, song in enumerate(recommendations, i): ...] *)
Fixpoint write_songs (i : nat) (recommendations : list Song.t)
  : list output :=
  match recommendations with
  | [] => []
  | song :: rest =>
      WriteSong i (Song.title song) (Song.artist song)
      :: WriteLink (Song.spotify_url song)
      :: write_songs (S i) rest
  end.

Definition closing : string :=
  "Interact with the voice input and get personalized song recommendations!".

(** The text the recommendations are made for: the text of the box, or
    what came back from the microphone when its button was pressed. *)
Definition mood_text (w : widgets) (voice : recognition) : result string :=
  if microphone w then snd (get_voice_input voice)
  else Return (text_input w).

(** The script; an exception that leaves it ends the execution. *)
Definition script (env : Env) (w : widgets) (voice : recognition)
  (st : State) : option exn * list output * State :=
  let sent :=
    if send w then [Write ("Sent mood: " ++ text_input w)] else [] in
  let '(heard, mood_text) :=
    if microphone w then get_voice_input voice
    else ([], Return (text_input w)) in
  match mood_text with
  | Raise e => (Some e, sent ++ heard, st)
  | Return mood_text =>
      let said :=
        if microphone w then [Write ("You said: " ++ mood_text)] else [] in
      if String.eqb mood_text "" then
        (None, sent ++ heard ++ said ++ [Write closing], st)
      else
        match detect_mood st_py mood_text with
        | Raise e => (Some e, sent ++ heard ++ said, st)
        | Return mood =>
            let language := Str.lower (label (radio w)) in
            let detected :=
              Write ("Detected mood: " ++ mood ++ " and language: "
                     ++ language) in
            match get_recommendations env mood language 3 st with
            | (Raise e, st') =>
                (Some e, sent ++ heard ++ said ++ [detected], st')
            | (Return recommendations, st') =>
                (None,
                 sent ++ heard ++ said
                 ++ [detected;
                     Write "Here are some song recommendations for you:"]
                 ++ write_songs 1 recommendations
                 ++ [Write closing],
                 st')
            end
        end
  end.

End Page.

(* ================================================================== *)
(** ** Facts about strings *)

Section StringFacts.

Lemma lower_char_not_I (c : ascii) : Str.lower_char c <> "I"%char.
Proof.
  destruct c as [b0 b1 b2 b3 b4 b5 b6 b7].
  destruct b0, b1, b2, b3, b4, b5, b6, b7; vm_compute; discriminate.
Qed.

Lemma lower_has_no_I (s : string) :
  Str.has_char "I"%char (Str.lower s) = false.
Proof.
  induction s as [|c s IH]; cbn -[Ascii.eqb]; [reflexivity|].
  rewrite IH, orb_false_r.
  apply Ascii.eqb_neq. intro E. now apply (lower_char_not_I c).
Qed.

Lemma startswith_first (a : ascii) (p s : string) :
  Str.startswith (String a p) s = true -> Str.has_char a s = true.
Proof.
  destruct s as [|b s]; cbn -[Ascii.eqb]; [discriminate|].
  intros H. apply andb_true_iff in H as [H _]. now rewrite H.
Qed.

Lemma startswith_rest (a : ascii) (p s : string) :
  Str.startswith (String a p) s = true ->
  exists b s', s = String b s' /\ Str.startswith p s' = true.
Proof.
  destruct s as [|b s]; cbn -[Ascii.eqb]; [discriminate|].
  intros H. apply andb_true_iff in H as [_ H]. eauto.
Qed.

Lemma startswith_has_char (c : ascii) (p : string) :
  Str.has_char c p = true ->
  forall s, Str.startswith p s = true -> Str.has_char c s = true.
Proof.
  induction p as [|a p IH]; cbn -[Ascii.eqb]; [discriminate|].
  intros Hc s Hs.
  destruct (startswith_rest _ _ _ Hs) as (b & s' & -> & Hp).
  cbn -[Ascii.eqb] in Hs |- *. apply andb_true_iff in Hs as [Hab _].
  apply Ascii.eqb_eq in Hab. subst b.
  apply orb_true_iff in Hc as [Hc|Hc].
  - now rewrite Hc.
  - rewrite (IH Hc s' Hp). apply orb_true_r.
Qed.

(** A string that occurs in [s] has all its characters in [s]. *)
Lemma contains_has_char (c : ascii) (p s : string) :
  Str.has_char c p = true ->
  Str.contains p s = true -> Str.has_char c s = true.
Proof.
  intros Hc. induction s as [|b s IH]; cbn -[Ascii.eqb Str.startswith].
  - rewrite orb_false_r. destruct p; discriminate.
  - intros H. apply orb_true_iff in H as [H|H].
    + exact (startswith_has_char c p Hc (String b s) H).
    + rewrite (IH H). apply orb_true_r.
Qed.

(** No keyword with a capital [I] occurs in a lower-cased text. *)
Lemma capital_I_never_matches (keyword s : string) :
  Str.has_char "I"%char keyword = true ->
  Str.contains keyword (Str.lower s) = false.
Proof.
  intros Hk. destruct (Str.contains keyword (Str.lower s)) eqn:E; [|reflexivity].
  pose proof (contains_has_char _ _ _ Hk E) as H.
  now rewrite lower_has_no_I in H.
Qed.

Lemma join_nonempty (sep p : string) (rest : list string) :
  p <> "" -> Str.join sep (p :: rest) <> "".
Proof.
  intros Hp. destruct p as [|c p]; [contradiction|].
  destruct rest; simpl; discriminate.
Qed.

End StringFacts.

(* ================================================================== *)
(** ** Facts about the scores *)

Section ScoreFacts.

Lemma keyword_score_cons (k : string) (ks : list string) (text : string) :
  keyword_score (k :: ks) text = hit k text + keyword_score ks text.
Proof.
  unfold keyword_score, hit. simpl.
  destruct (Str.contains k text); reflexivity.
Qed.

Lemma keyword_score_nil (text : string) : keyword_score [] text = 0.
Proof. reflexivity. Qed.

Lemma keyword_score_zero (ks : list string) (text : string) :
  keyword_score ks text = 0 <->
  existsb (fun k => Str.contains k text) ks = false.
Proof.
  induction ks as [|k ks IH]; [simpl; tauto|].
  rewrite keyword_score_cons. unfold hit. simpl.
  destruct (Str.contains k text); simpl.
  - split; [lia|discriminate].
  - exact IH.
Qed.

Lemma mentions_score (ks : list string) (s : string) :
  mentions ks s = true <-> keyword_score ks (Str.lower s) <> 0.
Proof.
  unfold mentions.
  destruct (existsb _ ks) eqn:E.
  - split; [|reflexivity]. intros _ H.
    apply keyword_score_zero in H. congruence.
  - split; [discriminate|]. intros H. exfalso. apply H.
    now apply keyword_score_zero.
Qed.

Lemma not_mentions_score (ks : list string) (s : string) :
  mentions ks s = false <-> keyword_score ks (Str.lower s) = 0.
Proof. unfold mentions. symmetry. apply keyword_score_zero. Qed.

(** What [any] and [max] make of the two scores. *)
Lemma classify_scores (h sd : nat) (neg : bool) :
  (let mood_scores := Dict.of_items [("happy", h); ("sad", sd)] in
   let mood_scores :=
     if neg then Dict.set mood_scores "happy" 0 else mood_scores in
   if any (Dict.values mood_scores) then max_key mood_scores
   else Return "happy")
  = Return (label_of (if neg then 0 else h) sd).
Proof.
  unfold label_of.
  destruct neg; cbn -[Nat.ltb Nat.eqb].
  - destruct sd; reflexivity.
  - destruct (h =? 0) eqn:Eh; destruct (sd =? 0) eqn:Es;
      cbn -[Nat.ltb]; try reflexivity;
      destruct (h <? sd); reflexivity.
Qed.

(** [detect_mood] in terms of the scores of the specification. *)
Lemma detect_mood_scores (src : source_file) (s : string) :
  detect_mood src s
  = Return (label_of (if has_negation s then 0 else happy_score s)
                     (sad_score src s)).
Proof.
  unfold detect_mood, has_negation, happy_score, sad_score.
  exact (classify_scores _ _ _).
Qed.

Lemma added_keywords_eq :
  added_keywords
  = ["not feeling good"; "miserable"; "empty"; "blue"; "low"; "emotional";
     "feeling down"].
Proof. reflexivity. Qed.

(** On a text with none of the added keywords the two tables score alike:
    the entry with a capital [I] of [app.py] never counts. *)
Lemma sad_score_agree (s : string) :
  mentions added_keywords s = false ->
  sad_score app_py s = sad_score st_py s.
Proof.
  intros H. apply not_mentions_score in H.
  rewrite added_keywords_eq in H.
  unfold sad_score, sad_keywords.
  repeat rewrite keyword_score_cons in *.
  rewrite keyword_score_nil in *.
  assert (HI : hit "I am not feeling good" (Str.lower s) = 0).
  { unfold hit. now rewrite capital_I_never_matches. }
  lia.
Qed.

(** The table of [st.py] never scores less than that of [app.py]. *)
Lemma sad_score_le (s : string) : sad_score app_py s <= sad_score st_py s.
Proof.
  unfold sad_score, sad_keywords.
  repeat rewrite keyword_score_cons.
  rewrite keyword_score_nil.
  assert (HI : hit "I am not feeling good" (Str.lower s) = 0).
  { unfold hit. now rewrite capital_I_never_matches. }
  lia.
Qed.

End ScoreFacts.

(* ================================================================== *)
(** ** The classifier: properties *)

Section Classifier.

Variable src : source_file.

Lemma label_no_sad (h : nat) : label_of h 0 = "happy".
Proof. unfold label_of. destruct h; reflexivity. Qed.

Lemma label_no_happy (sd : nat) : sd <> 0 -> label_of 0 sd = "sad".
Proof.
  intros H. unfold label_of.
  destruct sd as [|sd]; [contradiction|reflexivity].
Qed.

(** With a negation marker in the text the happy score does not count:
    the label follows the sad score alone. *)
Lemma detect_mood_negated (s : string) :
  has_negation s = true ->
  detect_mood src s
  = Return (if sad_score src s =? 0 then "happy" else "sad").
Proof.
  intros Hn. rewrite detect_mood_scores, Hn.
  destruct (Nat.eqb_spec (sad_score src s) 0) as [E|E].
  - now rewrite E.
  - now rewrite label_no_happy.
Qed.

End Classifier.

(** C1 (as amended).  When the lower-cased text holds a happy keyword and a
    negation marker ("not" or "no"), [detect_mood] returns "sad" if the sad
    score is not zero and the default "happy" if it is zero; in particular
    "I am not happy, I am sad" is classified as "sad".  This holds for the
    classifier of either file. *)
Theorem detect_mood_negated_happy (src : source_file) (s : string) :
  mentions happy_keywords s = true ->
  has_negation s = true ->
  (sad_score src s <> 0 -> detect_mood src s = Return "sad")
  /\ (sad_score src s = 0 -> detect_mood src s = Return "happy")
  /\ detect_mood src "I am not happy, I am sad" = Return "sad".
Proof.
  intros _ Hn. rewrite (detect_mood_negated src s Hn).
  repeat split.
  - intros H. apply Nat.eqb_neq in H. now rewrite H.
  - intros H. now rewrite H.
  - destruct src; reflexivity.
Qed.

Lemma detect_mood_negated_happy_witness :
  detect_mood app_py "I'm not good, just lonely" = Return "sad"
  /\ detect_mood st_py "no great day" = Return "happy".
Proof.
  split.
  - destruct (detect_mood_negated_happy app_py "I'm not good, just lonely")
      as [H _]; [reflexivity | reflexivity |].
    apply H. vm_compute. discriminate.
  - destruct (detect_mood_negated_happy st_py "no great day")
      as (_ & H & _); [reflexivity | reflexivity |].
    apply H. reflexivity.
Defined.

(** C1 as the specification states it fails at its own example: "I am not
    happy" holds the happy keyword "happy" and the marker "not", no sad
    keyword of either file occurs in it, and [detect_mood] returns the
    default "happy", not "sad". *)
Lemma detect_mood_not_happy_is_happy :
  mentions happy_keywords "I am not happy" = true
  /\ has_negation "I am not happy" = true
  /\ sad_score app_py "I am not happy" = 0
  /\ sad_score st_py "I am not happy" = 0
  /\ detect_mood app_py "I am not happy" = Return "happy"
  /\ detect_mood st_py "I am not happy" = Return "happy"
  /\ detect_mood app_py "I am not happy" <> Return "sad"
  /\ detect_mood st_py "I am not happy" <> Return "sad".
Proof.
  repeat split; try reflexivity; vm_compute; discriminate.
Qed.

(** C5.  A text that matches happy keywords only (happy score not zero,
    sad score zero) and holds no negation marker is classified as "happy";
    a text that matches sad keywords only (happy score zero, sad score not
    zero) is classified as "sad".  Both hold for either file. *)
Theorem detect_mood_one_sided (src : source_file) (s : string) :
  (happy_score s <> 0 -> sad_score src s = 0 -> has_negation s = false ->
   detect_mood src s = Return "happy")
  /\ (happy_score s = 0 -> sad_score src s <> 0 ->
      detect_mood src s = Return "sad").
Proof.
  rewrite detect_mood_scores. split.
  - intros _ Hs _. rewrite Hs. now rewrite label_no_sad.
  - intros Hh Hs. rewrite Hh.
    destruct (has_negation s); now rewrite label_no_happy.
Qed.

Lemma detect_mood_one_sided_witness :
  detect_mood app_py "Feeling GREAT today" = Return "happy"
  /\ detect_mood st_py "so lonely and blue" = Return "sad".
Proof.
  split.
  - destruct (detect_mood_one_sided app_py "Feeling GREAT today") as [H _].
    apply H; [vm_compute; discriminate | reflexivity | reflexivity].
  - destruct (detect_mood_one_sided st_py "so lonely and blue") as [_ H].
    apply H; [reflexivity | vm_compute; discriminate].
Defined.

(** C6.  A text in which no happy keyword and no sad keyword occurs is
    classified as "happy", the default; "banana" is such a text. *)
Theorem detect_mood_default (src : source_file) (s : string) :
  mentions happy_keywords s = false ->
  mentions (sad_keywords src) s = false ->
  detect_mood src s = Return "happy".
Proof.
  intros Hh Hs.
  apply not_mentions_score in Hh, Hs.
  rewrite detect_mood_scores.
  fold (sad_score src s) in Hs. rewrite Hs.
  apply f_equal, label_no_sad.
Qed.

Lemma detect_mood_default_witness :
  detect_mood app_py "banana" = Return "happy"
  /\ detect_mood st_py "banana" = Return "happy".
Proof.
  split.
  - apply (detect_mood_default app_py "banana"); reflexivity.
  - apply (detect_mood_default st_py "banana"); reflexivity.
Defined.

(** C9 (as amended).  On every text that holds none of the seven sad
    keywords [st.py] adds to the table of [app.py], the classifiers of the
    two files return the same label. *)
Theorem detect_mood_files_agree (s : string) :
  mentions added_keywords s = false ->
  detect_mood app_py s = detect_mood st_py s.
Proof.
  intros H. rewrite !detect_mood_scores.
  now rewrite (sad_score_agree s H).
Qed.

Lemma detect_mood_files_agree_witness :
  detect_mood app_py "not so good, rather sad"
  = detect_mood st_py "not so good, rather sad".
Proof.
  apply (detect_mood_files_agree "not so good, rather sad"). reflexivity.
Defined.

(** C9 as stated fails: "blue" is a sad keyword of [st.py] only, so
    [app.py] answers "happy" where [st.py] answers "sad". *)
Lemma detect_mood_files_differ :
  detect_mood app_py "blue" = Return "happy"
  /\ detect_mood st_py "blue" = Return "sad"
  /\ detect_mood app_py "blue" <> detect_mood st_py "blue".
Proof.
  repeat split; try reflexivity. vm_compute. discriminate.
Qed.

(** Where the two files differ, it is [st.py] that says "sad". *)
Lemma detect_mood_sad_carries_over (s : string) :
  detect_mood app_py s = Return "sad" -> detect_mood st_py s = Return "sad".
Proof.
  rewrite !detect_mood_scores.
  pose proof (sad_score_le s) as Hle.
  unfold label_of.
  destruct (has_negation s).
  - destruct (sad_score app_py s) as [|a]; simpl; [discriminate|].
    destruct (sad_score st_py s) as [|b]; [lia|reflexivity].
  - set (h := happy_score s) in *.
    destruct (Nat.eqb_spec h 0) as [Eh|Eh];
      destruct (Nat.eqb_spec (sad_score app_py s) 0) as [Ea|Ea];
      destruct (Nat.eqb_spec (sad_score st_py s) 0) as [Eb|Eb]; simpl;
      try discriminate; try lia;
      destruct (Nat.ltb_spec h (sad_score app_py s));
      destruct (Nat.ltb_spec h (sad_score st_py s));
      try discriminate; try reflexivity; lia.
Qed.

(* ================================================================== *)
(** ** Building a song: properties of [_create_song] *)

Section CreateSong.

Lemma nonempty_str_inv (v : json) :
  nonempty_str v = true -> exists s, v = JStr s /\ s <> "".
Proof.
  destruct v as [| | |s| |]; simpl; try discriminate.
  intros H. exists s. split; [reflexivity|].
  intros ->. discriminate.
Qed.

(** The comprehension over well-named artists yields their names. *)
Lemma artist_names (artists : list json) :
  forallb named artists = true ->
  exists names,
    Py.comprehension (fun artist => Py.getitem artist "name") artists
    = Return (map JStr names)
    /\ Py.strings (map JStr names) = Return names
    /\ List.length names = List.length artists
    /\ Forall (fun n => n <> "") names.
Proof.
  induction artists as [|a artists IH]; simpl.
  - intros _. exists []. repeat split; constructor.
  - intros H. apply andb_true_iff in H as [Ha Hr].
    destruct (IH Hr) as (names & Hc & Hs & Hl & Hn).
    destruct a as [| | | | |d]; simpl in Ha; try discriminate.
    destruct (Dict.get d "name") as [n|] eqn:En; [|discriminate].
    destruct (nonempty_str_inv n Ha) as (s & -> & Hne).
    exists (s :: names). cbn [Py.getitem]. unfold Dict.getitem.
    rewrite En, Hc. simpl. rewrite Hs.
    split; [reflexivity|]. split; [reflexivity|].
    split; [simpl; now rewrite Hl | now constructor].
Qed.

End CreateSong.

(** C8.  From a well-formed track record (a name that is a non-empty
    string, at least one artist and every artist with a non-empty name, a
    uri, a non-empty web address under [external_urls]) [_create_song]
    builds a song whose title, artist and web address are not empty; its
    preview address is the empty string when the track has no
    [preview_url] field. *)
Theorem create_song_well_formed (track : json) (mood language : string) :
  well_formed track = true ->
  exists song,
    _create_song track mood language = Return song
    /\ (exists title, Song.title song = JStr title /\ title <> "")
    /\ Song.artist song <> ""
    /\ (exists url, Song.spotify_url song = JStr url /\ url <> "")
    /\ (Py.contains "preview_url" track = Return false ->
        Song.preview_url song = JStr "").
Proof.
  destruct track as [| | | | |d]; cbn [well_formed]; try discriminate.
  unfold _create_song. cbn [Py.getitem Py.get Py.contains].
  unfold Dict.getitem, Dict.mem.
  destruct (Dict.get d "name") as [name|]; [|discriminate].
  destruct (Dict.get d "artists") as [[| | | |[|a artists]|]|];
    try discriminate.
  destruct (Dict.get d "uri") as [[| | |uri| |]|]; try discriminate.
  destruct (Dict.get d "external_urls") as [[| | | | |urls]|];
    try discriminate.
  intros H. apply andb_true_iff in H as [H Hurl].
  apply andb_true_iff in H as [Hname Hartists].
  destruct (nonempty_str_inv name Hname) as (title & -> & Htitle).
  destruct (artist_names (a :: artists) Hartists)
    as (names & Hc & Hs & Hl & Hn).
  destruct (Dict.get urls "spotify") as [url|] eqn:Eurl; [|discriminate].
  destruct (nonempty_str_inv url Hurl) as (u & -> & Hu).
  cbn [rbind Py.iter]. rewrite Hc. cbn [rbind].
  unfold Py.join. rewrite Hs. cbn [rbind Py.getitem].
  unfold Dict.getitem. rewrite Eurl. cbn [rbind].
  eexists. split; [reflexivity|]. cbn [Song.title Song.artist
    Song.spotify_url Song.preview_url].
  split; [exists title; now split|].
  split.
  { destruct names as [|n names]; [discriminate Hl|].
    apply join_nonempty. now inversion Hn. }
  split; [exists u; now split|].
  destruct (Dict.get d "preview_url"); [discriminate|reflexivity].
Qed.

Lemma create_song_well_formed_witness :
  exists song,
    _create_song
      (JDict [("name", JStr "Happy");
              ("artists", JList [JDict [("name", JStr "Pharrell Williams")]]);
              ("uri", JStr "spotify:track:60nZcImufyMA1MKQY3dcCH");
              ("external_urls",
               JDict [("spotify", JStr "https://open.spotify.com/track/x")])])
      "happy" "english" = Return song
    /\ (exists title, Song.title song = JStr title /\ title <> "")
    /\ Song.artist song <> ""
    /\ (exists url, Song.spotify_url song = JStr url /\ url <> "")
    /\ (Return false = Return false -> Song.preview_url song = JStr "").
Proof.
  apply (create_song_well_formed
           (JDict [("name", JStr "Happy");
                   ("artists",
                    JList [JDict [("name", JStr "Pharrell Williams")]]);
                   ("uri", JStr "spotify:track:60nZcImufyMA1MKQY3dcCH");
                   ("external_urls",
                    JDict [("spotify",
                            JStr "https://open.spotify.com/track/x")])])
           "happy" "english").
  reflexivity.
Defined.

(* ================================================================== *)
(** ** Running commands *)

Section Commands.

Context {A B : Type}.

Lemma bind_run (m : M A) (k : A -> M B) (st : State) :
  bind m k st
  = match m st with
    | (Return a, st') => k a st'
    | (Raise e, st') => (Raise e, st')
    end.
Proof. reflexivity. Qed.

Lemma try_except_run (body : M A) (handler : exn -> M A) (st : State) :
  try_except body handler st
  = match body st with
    | (Return a, st') => (Return a, st')
    | (Raise e, st') => handler e st'
    end.
Proof. reflexivity. Qed.

End Commands.

Section Draws.

Variable env : Env.

Lemma randint_0_50_run (st : State) :
  randint env 0 50 st
  = (Return (0 + Z.of_nat (random_source env (draws st) mod 51))%Z,
     {| songs := songs st; draws := S (draws st); calls := calls st |}).
Proof. reflexivity. Qed.

Lemma randint_0_50_range (k : nat) :
  (0 <= 0 + Z.of_nat (random_source env k mod 51) <= 50)%Z.
Proof.
  pose proof (Nat.mod_upper_bound (random_source env k) 51). lia.
Qed.

End Draws.

(* ================================================================== *)
(** ** Shuffling a list of tracks *)

Section Shuffle.

Variable env : Env.

Lemma list_set_length {A} (l : list A) :
  forall i v, List.length (Py.list_set l i v) = List.length l.
Proof.
  induction l as [|a l IH]; intros [|i] v; cbn; auto.
Qed.

(** Putting [x] where [a] stood and [a] in front is a rearrangement. *)
Lemma list_set_front {A} (x a : A) (l : list A) :
  forall j,
    nth_error l j = Some a ->
    Permutation (x :: l) (a :: Py.list_set l j x).
Proof.
  induction l as [|y l IH]; intros [|j] H; cbn in H; try discriminate.
  - injection H as ->. cbn. apply perm_swap.
  - cbn. apply perm_trans with (y :: x :: l); [apply perm_swap|].
    apply perm_trans with (y :: a :: Py.list_set l j x); [|apply perm_swap].
    apply perm_skip. now apply IH.
Qed.

(** The two writes of a swap rearrange the list. *)
Lemma swap_rearranges {A} (l : list A) :
  forall i j a b,
    nth_error l j = Some a -> nth_error l i = Some b ->
    Permutation l (Py.list_set (Py.list_set l i a) j b).
Proof.
  induction l as [|x l IH]; intros [|i] [|j] a b Ha Hb;
    cbn in Ha, Hb; try discriminate; cbn.
  - injection Hb as ->. reflexivity.
  - injection Hb as ->. now apply list_set_front.
  - injection Ha as ->. now apply list_set_front.
  - apply perm_skip. now apply IH.
Qed.

(** On a list the loop of [shuffle] does not raise: it draws [i] numbers
    and leaves a rearrangement of the list. *)
Lemma shuffle_from_list (i : nat) :
  forall l st,
    i < List.length l ->
    exists l',
      shuffle_from env i (JList l) st
      = (Return (JList l'),
         {| songs := songs st; draws := i + draws st; calls := calls st |})
      /\ Permutation l l'.
Proof.
  induction i as [|i IH]; intros l st Hi.
  - exists l. destruct st. split; reflexivity.
  - cbn [shuffle_from]. rewrite bind_run. cbn [randbelow].
    rewrite bind_run. unfold lift at 1. cbn [Py.swap].
    set (j := random_source env (draws st) mod (S i + 1)).
    assert (Hj : j < List.length l).
    { pose proof (Nat.mod_upper_bound (random_source env (draws st))
                    (S i + 1)). unfold j. lia. }
    destruct (nth_error l j) as [a|] eqn:Ea;
      [|apply nth_error_None in Ea; lia].
    destruct (nth_error l (S i)) as [b|] eqn:Eb;
      [|apply nth_error_None in Eb; lia].
    set (l1 := Py.list_set (Py.list_set l (S i) a) j b).
    destruct (IH l1 {| songs := songs st; draws := S (draws st);
                       calls := calls st |}) as (l' & Hrun & Hperm).
    { unfold l1. rewrite !list_set_length. lia. }
    exists l'. split.
    + rewrite Hrun. cbn [songs draws calls].
      now rewrite Nat.add_succ_r.
    + apply perm_trans with l1; [|exact Hperm].
      now apply swap_rearranges.
Qed.

(** [random.shuffle] of a list of tracks returns the same tracks in some
    order. *)
Lemma shuffle_list (l : list json) (st : State) :
  exists l' st',
    shuffle env (JList l) st = (Return (JList l'), st')
    /\ Permutation l l'
    /\ songs st' = songs st /\ calls st' = calls st.
Proof.
  unfold shuffle. rewrite bind_run. unfold lift at 1. cbn [Py.len].
  destruct l as [|x l].
  - exists [], st. repeat split. constructor.
  - destruct (shuffle_from_list (List.length (x :: l) - 1) (x :: l) st)
      as (l' & Hrun & Hperm); [cbn; lia|].
    eexists l', _. split; [exact Hrun|]. now repeat split.
Qed.

End Shuffle.

(* ================================================================== *)
(** ** Invariants of a run *)

Section Invariant.

Variables (env : Env) (mood language : string) (num_songs : Z).

(** A property of the state that drawing a number, issuing a planned
    search and appending a song while fewer than [num_songs] are held
    all keep. *)
Variable Inv : State -> Prop.

Hypothesis Inv_draw : forall st,
  Inv st ->
  Inv {| songs := songs st; draws := S (draws st); calls := calls st |}.

Hypothesis Inv_search : forall st query offset,
  Inv st -> planned mood language query -> (0 <= offset <= 50)%Z ->
  Inv {| songs := songs st; draws := draws st;
         calls := calls st ++ [call_for language query offset] |}.

Hypothesis Inv_append : forall st track song,
  Inv st ->
  (Z.of_nat (List.length (songs st)) < num_songs)%Z ->
  _create_song track mood language = Return song ->
  Inv {| songs := songs st ++ [song]; draws := draws st;
         calls := calls st |}.

Lemma shuffle_from_inv (i : nat) :
  forall x st, Inv st -> Inv (snd (shuffle_from env i x st)).
Proof.
  induction i as [|i IH]; intros x st H; [exact H|].
  cbn [shuffle_from]. rewrite bind_run. cbn [randbelow].
  rewrite bind_run. unfold lift at 1.
  destruct (Py.swap x (S i) _) as [x'|e]; [|now apply Inv_draw].
  apply IH. now apply Inv_draw.
Qed.

Lemma shuffle_inv (x : json) (st : State) :
  Inv st -> Inv (snd (shuffle env x st)).
Proof.
  intros H. unfold shuffle. rewrite bind_run. unfold lift at 1.
  destruct (Py.len x) as [n|e]; [|exact H].
  now apply shuffle_from_inv.
Qed.

Lemma track_loop_inv (tracks : list json) :
  forall st,
    Inv st -> Inv (snd (track_loop mood language num_songs tracks st)).
Proof.
  induction tracks as [|track tracks IH]; intros st H; [exact H|].
  cbn [track_loop]. rewrite bind_run. cbn [get_songs].
  destruct (Z.leb_spec num_songs (Z.of_nat (List.length (songs st))))
    as [Hfull|Hroom]; [exact H|].
  rewrite bind_run. unfold lift at 1.
  destruct (_create_song track mood language) as [song|e] eqn:E;
    [|exact H].
  rewrite bind_run. cbn [append_song].
  apply IH. now apply (Inv_append st track song).
Qed.

Lemma search_and_collect_inv (query : string) (offset : Z) (st : State) :
  Inv st -> planned mood language query -> (0 <= offset <= 50)%Z ->
  Inv (snd (search_and_collect env mood language num_songs
              query (market_of language) offset st)).
Proof.
  intros H Hq Ho. unfold search_and_collect.
  rewrite bind_run. cbn [search].
  pose proof (Inv_search st query offset H Hq Ho) as H1.
  fold (call_for language query offset).
  destruct (spotify_search env _ _) as [results|e]; [|exact H1].
  rewrite bind_run. unfold lift at 1.
  destruct (has_items results) as [[|]|e]; [|exact H1|exact H1].
  rewrite bind_run. unfold lift at 1.
  destruct (rbind _ _) as [tracks|e]; [|exact H1].
  rewrite bind_run.
  pose proof (shuffle_inv tracks _ H1) as H2.
  destruct (shuffle env tracks _) as [[tracks'|e] st2]; [|exact H2].
  rewrite bind_run. unfold lift at 1.
  destruct (Py.iter tracks') as [items|e]; [|exact H2].
  now apply track_loop_inv.
Qed.

(** The phrase loop never raises, and keeps the invariant. *)
Lemma phrase_loop_inv (terms : list string) :
  (forall query, In query terms -> planned mood language query) ->
  forall st,
    Inv st ->
    exists st',
      phrase_loop env mood language num_songs terms st = (Return tt, st')
      /\ Inv st'.
Proof.
  induction terms as [|term terms IH]; intros Hp st H.
  - exists st. now split.
  - cbn [phrase_loop]. rewrite bind_run, randint_0_50_run.
    set (offset := (0 + Z.of_nat _)%Z).
    set (st1 := Build_State _ _ _).
    assert (H1 : Inv st1) by now apply Inv_draw.
    assert (Hrest : forall query,
               In query terms -> planned mood language query)
      by (intros q Hq; apply Hp; now right).
    rewrite bind_run, try_except_run, bind_run.
    pose proof (search_and_collect_inv term offset st1 H1
                  (Hp term (or_introl eq_refl))
                  (randint_0_50_range env (draws st))) as H2.
    destruct (search_and_collect env mood language num_songs term
                (market_of language) offset st1) as [[[]|e] st2];
      cbn [ret snd] in *.
    + rewrite bind_run. cbn [get_songs].
      destruct (num_songs <=? Z.of_nat (List.length (songs st2)))%Z.
      * exists st2. now split.
      * now apply IH.
    + now apply IH.
Qed.

(** The whole search returns a list and never raises; the list is a
    slice of the songs collected, or empty when the lookup in the
    configuration table failed. *)
Lemma search_songs_inv (st : State) :
  Inv {| songs := []; draws := draws st; calls := calls st |} ->
  exists result st',
    search_songs_by_language env mood language num_songs st
    = (Return result, st')
    /\ Inv st'
    /\ (result = Py.slice_to (songs st') num_songs \/ result = []).
Proof.
  intros H. unfold search_songs_by_language.
  rewrite try_except_run, bind_run. cbn [set_songs].
  set (st0 := Build_State _ _ _) in *.
  rewrite bind_run. unfold lift at 1.
  destruct (mood_config mood language) as [config|e] eqn:Ec.
  2:{ exists [], st0. cbn. auto. }
  rewrite bind_run. unfold lift at 1.
  destruct (Dict.getitem config "search_terms") as [terms|e] eqn:Et.
  2:{ exists [], st0. cbn. auto. }
  assert (Hp : forall query, In query terms -> planned mood language query).
  { intros q Hq. exists terms. split; [|exact Hq].
    unfold search_terms. now rewrite Ec. }
  destruct (phrase_loop_inv terms Hp st0 H) as (st' & Hrun & H').
  rewrite bind_run, Hrun, bind_run. cbn [get_songs ret].
  exists (Py.slice_to (songs st') num_songs), st'. auto.
Qed.

End Invariant.

(* ================================================================== *)
(** ** The aggregator: properties *)

Section Aggregator.

Variables (env : Env) (mood language : string) (num_songs : Z).

Lemma slice_to_nil {A} (n : Z) : Py.slice_to (@nil A) n = [].
Proof.
  unfold Py.slice_to. destruct (0 <=? n)%Z; apply firstn_nil.
Qed.

Lemma slice_to_length {A} (l : list A) (n : Z) :
  (Z.of_nat (List.length l) <= Z.max 0 n)%Z ->
  (Z.of_nat (List.length (Py.slice_to l n)) <= Z.max 0 n)%Z.
Proof.
  intros H. unfold Py.slice_to.
  destruct (0 <=? n)%Z; rewrite length_firstn; lia.
Qed.

Lemma slice_to_Forall {A} (P : A -> Prop) (l : list A) (n : Z) :
  Forall P l -> Forall P (Py.slice_to l n).
Proof.
  intros H. unfold Py.slice_to.
  assert (Hfirst : forall k, Forall P (firstn k l)).
  { induction H as [|x l Hx Hl IH]; intros [|k]; cbn; constructor; auto. }
  destruct (0 <=? n)%Z; apply Hfirst.
Qed.

(** A song carries the mood and the language it was built for. *)
Lemma create_song_labels (track : json) (song : Song.t) :
  _create_song track mood language = Return song ->
  Song.mood song = mood /\ Song.language song = language.
Proof.
  unfold _create_song.
  repeat match goal with
         | |- context [rbind ?r _] =>
             destruct r; cbn [rbind]; [|discriminate]
         end.
  intros E. injection E as <-. now split.
Qed.

Lemma issued_app (st st' : State) (l : list Call.t) :
  calls st' = calls st ++ l -> issued st st' = l.
Proof.
  intros H. unfold issued. rewrite H. clear H.
  induction (calls st) as [|c cs IH]; [reflexivity|exact IH].
Qed.

(** A failing search adds no song, and the loop goes on with the next
    phrase. *)
Lemma phrase_loop_failed_search (term : string) (rest : list string)
  (st : State) (e : exn) :
  spotify_search env (List.length (calls st))
    (call_for language term
       (0 + Z.of_nat (random_source env (draws st) mod 51)))
  = Raise e ->
  phrase_loop env mood language num_songs (term :: rest) st
  = phrase_loop env mood language num_songs rest
      (after_failed_search env language term st).
Proof.
  intros Hfail. cbn [phrase_loop].
  rewrite bind_run, randint_0_50_run.
  rewrite bind_run, try_except_run, bind_run.
  unfold search_and_collect. rewrite bind_run. cbn [search calls].
  fold (call_for language term
          (0 + Z.of_nat (random_source env (draws st) mod 51))).
  rewrite Hfail. reflexivity.
Qed.

(** With the catalog failing throughout, the loop visits every phrase,
    and each visit is a failed search. *)
Lemma phrase_loop_all_fail (terms : list string) :
  all_searches_fail env ->
  forall st,
    phrase_loop env mood language num_songs terms st
    = (Return tt,
       fold_left (fun st term => after_failed_search env language term st)
                 terms st).
Proof.
  intros Hfail. induction terms as [|term terms IH]; intros st.
  - reflexivity.
  - destruct (Hfail (List.length (calls st))
                (call_for language term
                   (0 + Z.of_nat (random_source env (draws st) mod 51))))
      as [e He].
    rewrite (phrase_loop_failed_search term terms st e He).
    apply IH.
Qed.

Lemma failed_searches_songs (terms : list string) (st : State) :
  songs (fold_left (fun st term => after_failed_search env language term st)
                   terms st)
  = songs st.
Proof.
  revert st. induction terms as [|term terms IH]; intros st;
    [reflexivity|].
  cbn [fold_left]. now rewrite IH.
Qed.

Lemma failed_searches_calls (terms : list string) (st : State) :
  map (fun c => (Call.q c, Call.market c))
      (calls (fold_left
                (fun st term => after_failed_search env language term st)
                terms st))
  = map (fun c => (Call.q c, Call.market c)) (calls st)
    ++ map (fun term => (term, market_of language)) terms.
Proof.
  revert st. induction terms as [|term terms IH]; intros st.
  - cbn. now rewrite app_nil_r.
  - cbn [fold_left]. rewrite IH. cbn [after_failed_search calls].
    rewrite map_app, <- app_assoc. reflexivity.
Qed.

(** The run when the configuration table has the pair and every search
    fails. *)
Lemma search_songs_all_fail (terms : list string) (st : State) :
  all_searches_fail env ->
  search_terms mood language = Return terms ->
  search_songs_by_language env mood language num_songs st
  = (Return [],
     fold_left (fun st term => after_failed_search env language term st)
               terms
               {| songs := []; draws := draws st; calls := calls st |}).
Proof.
  intros Hfail Ht. unfold search_songs_by_language.
  rewrite try_except_run, bind_run. cbn [set_songs].
  rewrite bind_run. unfold lift at 1.
  unfold search_terms in Ht.
  destruct (mood_config mood language) as [config|e]; [|discriminate].
  cbn [rbind] in Ht.
  rewrite bind_run. unfold lift at 1. rewrite Ht.
  rewrite bind_run, (phrase_loop_all_fail terms Hfail).
  rewrite bind_run. cbn [get_songs ret].
  rewrite failed_searches_songs. cbn [songs].
  now rewrite slice_to_nil.
Qed.

(** A pair the configuration table does not have: the lookup raises
    [KeyError] before any search, and the handler returns []. *)
Lemma search_songs_no_config (st : State) (e : exn) :
  mood_config mood language = Raise e ->
  search_songs_by_language env mood language num_songs st
  = (Return [], {| songs := []; draws := draws st; calls := calls st |}).
Proof.
  intros He. unfold search_songs_by_language.
  rewrite try_except_run, bind_run. cbn [set_songs].
  rewrite bind_run. unfold lift at 1. now rewrite He.
Qed.

End Aggregator.

(** C2.  Whatever the mood, the language, the requested count and the
    answers of the catalog, [get_recommendations] (that is,
    [search_songs_by_language]) returns a list, and the list is no longer
    than the count requested; for a count below zero it is empty. *)
Theorem recommendations_at_most_requested
  (env : Env) (mood language : string) (num_songs : Z) (st : State) :
  exists result st',
    get_recommendations env mood language num_songs st = (Return result, st')
    /\ (Z.of_nat (List.length result) <= Z.max 0 num_songs)%Z.
Proof.
  unfold get_recommendations.
  destruct (search_songs_inv env mood language num_songs
              (fun st =>
                 (Z.of_nat (List.length (songs st)) <= Z.max 0 num_songs)%Z))
    with (st := st) as (result & st' & Hrun & Hinv & Hres).
  - intros s H. exact H.
  - intros s query offset H _ _. exact H.
  - intros s track song H Hroom _. cbn [songs].
    rewrite length_app. cbn [List.length]. lia.
  - cbn. lia.
  - exists result, st'. split; [exact Hrun|].
    destruct Hres as [-> | ->].
    + now apply slice_to_length.
    + cbn. lia.
Qed.

(** C10.  Every song [get_recommendations] returns carries the arguments
    of the call: its mood is the mood asked for and its language the
    language asked for, whatever the catalog answers. *)
Theorem recommendations_carry_arguments
  (env : Env) (mood language : string) (num_songs : Z) (st : State) :
  exists result st',
    get_recommendations env mood language num_songs st = (Return result, st')
    /\ Forall (fun song =>
                 Song.mood song = mood /\ Song.language song = language)
              result.
Proof.
  unfold get_recommendations.
  destruct (search_songs_inv env mood language num_songs
              (fun st =>
                 Forall (fun song =>
                           Song.mood song = mood
                           /\ Song.language song = language) (songs st)))
    with (st := st) as (result & st' & Hrun & Hinv & Hres).
  - intros s H. exact H.
  - intros s query offset H _ _. exact H.
  - intros s track song H _ Hsong. cbn [songs].
    apply Forall_app. split; [exact H|].
    constructor; [|constructor].
    exact (create_song_labels mood language track song Hsong).
  - constructor.
  - exists result, st'. split; [exact Hrun|].
    destruct Hres as [-> | ->].
    + now apply slice_to_Forall.
    + constructor.
Qed.

(** C3.  No exception of the catalog search leaves the aggregator:
    [search_songs_by_language] always returns a list.  When every search
    raises, the list is empty.  A phrase whose search raises adds no song,
    and the loop goes on with the phrases that remain. *)
Theorem search_failures_are_swallowed
  (env : Env) (mood language : string) (num_songs : Z) :
  (forall st, exists result st',
      search_songs_by_language env mood language num_songs st
      = (Return result, st'))
  /\ (all_searches_fail env ->
      forall st, exists st',
        search_songs_by_language env mood language num_songs st
        = (Return [], st'))
  /\ (forall term rest st e,
        spotify_search env (List.length (calls st))
          (call_for language term
             (0 + Z.of_nat (random_source env (draws st) mod 51)))
        = Raise e ->
        phrase_loop env mood language num_songs (term :: rest) st
        = phrase_loop env mood language num_songs rest
            (after_failed_search env language term st)
        /\ songs (after_failed_search env language term st) = songs st).
Proof.
  split; [|split].
  - intros st.
    destruct (search_songs_inv env mood language num_songs (fun _ => True))
      with (st := st) as (result & st' & Hrun & _); auto.
    now exists result, st'.
  - intros Hfail st.
    destruct (search_terms mood language) as [terms|e] eqn:Et.
    + eexists. exact (search_songs_all_fail env mood language num_songs
                        terms st Hfail Et).
    + unfold search_terms in Et.
      destruct (mood_config mood language) as [config|e'] eqn:Ec.
      * cbn [rbind] in Et. eexists.
        unfold search_songs_by_language.
        rewrite try_except_run, bind_run. cbn [set_songs].
        rewrite bind_run. unfold lift at 1. rewrite Ec.
        rewrite bind_run. unfold lift at 1. rewrite Et. reflexivity.
      * eexists. exact (search_songs_no_config env mood language num_songs
                          st e' Ec).
  - intros term rest st e Hfail. split; [|reflexivity].
    exact (phrase_loop_failed_search env mood language num_songs
             term rest st e Hfail).
Qed.

Lemma search_failures_are_swallowed_witness :
  (exists st',
      search_songs_by_language catalog_down "sad" "hindi" 3 start
      = (Return [], st'))
  /\ phrase_loop catalog_down "sad" "hindi" 3
       ["bollywood sad"; "hindi emotional"] start
     = phrase_loop catalog_down "sad" "hindi" 3 ["hindi emotional"]
         (after_failed_search catalog_down "hindi" "bollywood sad" start).
Proof.
  destruct (search_failures_are_swallowed catalog_down "sad" "hindi" 3)
    as (_ & Hall & Hstep).
  split.
  - apply Hall. intros k call. eexists. reflexivity.
  - apply (Hstep "bollywood sad" ["hindi emotional"] start
             (ServiceError "connection timed out")).
    reflexivity.
Defined.

(* ================================================================== *)
(** ** The query plan: configuration table and market code *)

Section QueryPlan.

Variables (env : Env) (mood language : string) (num_songs : Z).

(** Every search issued during a run is on the plan. *)
Lemma searches_on_plan (st : State) :
  Forall (on_plan mood language)
    (issued st
       (snd (search_songs_by_language env mood language num_songs st))).
Proof.
  destruct (search_songs_inv env mood language num_songs
              (fun st' => exists l,
                   calls st' = calls st ++ l
                   /\ Forall (on_plan mood language) l))
    with (st := st) as (result & st' & Hrun & (l & Hl & Hok) & _).
  - intros s (l & Hl & Hok). exists l. now split.
  - intros s query offset (l & Hl & Hok) Hq _.
    exists (l ++ [call_for language query offset]). cbn [calls]. split.
    + now rewrite Hl, app_assoc.
    + apply Forall_app. split; [exact Hok|].
      constructor; [|constructor]. now split.
  - intros s track song (l & Hl & Hok) _ _. exists l. now split.
  - exists []. cbn [calls]. split; [now rewrite app_nil_r|constructor].
  - rewrite Hrun. cbn [snd]. now rewrite (issued_app st st' l Hl).
Qed.

Lemma failed_searches_issued (terms : list string) :
  forall st,
    exists l,
      calls (fold_left
               (fun st term => after_failed_search env language term st)
               terms st)
      = calls st ++ l
      /\ map (fun c => (Call.q c, Call.market c)) l
         = map (fun term => (term, market_of language)) terms.
Proof.
  induction terms as [|term terms IH]; intros st.
  - exists []. split; [now rewrite app_nil_r|reflexivity].
  - cbn [fold_left].
    destruct (IH (after_failed_search env language term st))
      as (l & Hl & Hmap).
    cbn [after_failed_search calls] in Hl.
    eexists (_ :: l). split.
    + rewrite Hl, <- app_assoc. reflexivity.
    + cbn [map]. now rewrite Hmap.
Qed.

(** With every search failing, the run issues one search per configured
    phrase, in the order of the table, each with the market of the
    language. *)
Lemma plan_is_followed (terms : list string) (st : State) :
  all_searches_fail env ->
  search_terms mood language = Return terms ->
  map (fun c => (Call.q c, Call.market c))
      (issued st
         (snd (search_songs_by_language env mood language num_songs st)))
  = map (fun term => (term, market_of language)) terms.
Proof.
  intros Hfail Ht.
  rewrite (search_songs_all_fail env mood language num_songs terms st
             Hfail Ht).
  cbn [snd].
  destruct (failed_searches_issued terms
              {| songs := []; draws := draws st; calls := calls st |})
    as (l & Hl & Hmap).
  cbn [calls] in Hl.
  now rewrite (issued_app st _ l Hl).
Qed.

End QueryPlan.

(** C4.  The plan for (happy, english) is the four phrases "happy",
    "upbeat", "dance", "party" with the market "US"; the plan for (sad,
    hindi) is the four phrases "bollywood sad", "hindi emotional",
    "bollywood classical", "dard bhare gane" with the market "IN".  The
    market is "IN" when the language is "hindi" and "US" otherwise, and
    every search the aggregator issues carries that market and one of the
    configured phrases; when no search succeeds it issues exactly the
    plan, in order. *)
Theorem query_plan_and_market :
  search_terms "happy" "english"
  = Return ["happy"; "upbeat"; "dance"; "party"]
  /\ market_of "english" = "US"
  /\ search_terms "sad" "hindi"
     = Return ["bollywood sad"; "hindi emotional"; "bollywood classical";
               "dard bhare gane"]
  /\ market_of "hindi" = "IN"
  /\ (forall language,
        (language = "hindi" /\ market_of language = "IN")
        \/ (language <> "hindi" /\ market_of language = "US"))
  /\ (forall env mood language num_songs st,
        Forall (on_plan mood language)
               (issued st
                  (snd (search_songs_by_language
                          env mood language num_songs st))))
  /\ (forall env num_songs st,
        all_searches_fail env ->
        map (fun c => (Call.q c, Call.market c))
            (issued st
               (snd (search_songs_by_language
                       env "happy" "english" num_songs st)))
        = [("happy", "US"); ("upbeat", "US"); ("dance", "US");
           ("party", "US")]
        /\ map (fun c => (Call.q c, Call.market c))
               (issued st
                  (snd (search_songs_by_language
                          env "sad" "hindi" num_songs st)))
           = [("bollywood sad", "IN"); ("hindi emotional", "IN");
              ("bollywood classical", "IN"); ("dard bhare gane", "IN")]).
Proof.
  split; [reflexivity|]. split; [reflexivity|].
  split; [reflexivity|]. split; [reflexivity|].
  split; [|split].
  - intros language. unfold market_of.
    destruct (String.eqb_spec language "hindi") as [E|E]; auto.
  - intros env mood language num_songs st.
    exact (searches_on_plan env mood language num_songs st).
  - intros env num_songs st Hfail. split.
    + exact (plan_is_followed env "happy" "english" num_songs
               ["happy"; "upbeat"; "dance"; "party"] st Hfail eq_refl).
    + exact (plan_is_followed env "sad" "hindi" num_songs
               ["bollywood sad"; "hindi emotional"; "bollywood classical";
                "dard bhare gane"] st Hfail eq_refl).
Qed.

Lemma query_plan_and_market_witness :
  map (fun c => (Call.q c, Call.market c))
      (issued start
         (snd (search_songs_by_language
                 catalog_down "happy" "english" 3 start)))
  = [("happy", "US"); ("upbeat", "US"); ("dance", "US"); ("party", "US")]
  /\ map (fun c => (Call.q c, Call.market c))
         (issued start
            (snd (search_songs_by_language
                    catalog_down "sad" "hindi" 3 start)))
     = [("bollywood sad", "IN"); ("hindi emotional", "IN");
        ("bollywood classical", "IN"); ("dard bhare gane", "IN")].
Proof.
  destruct query_plan_and_market as (_ & _ & _ & _ & _ & _ & H).
  apply (H catalog_down 3%Z start).
  intros k call. eexists. reflexivity.
Defined.

(** C7.  For a mood other than "happy" and "sad", or a language other
    than "english" and "hindi", [search_songs_by_language] returns the
    empty list: the lookup in the configuration table raises, the
    exception is caught, and no search is issued. *)
Theorem unknown_mood_or_language
  (env : Env) (mood language : string) (num_songs : Z) (st : State) :
  (mood <> "happy" /\ mood <> "sad")
  \/ (language <> "english" /\ language <> "hindi") ->
  search_songs_by_language env mood language num_songs st
  = (Return [], {| songs := []; draws := draws st; calls := calls st |}).
Proof.
  intros H.
  apply (search_songs_no_config env mood language num_songs st KeyError).
  unfold mood_config, mood_map, Dict.getitem.
  cbn [Dict.get].
  destruct (String.eqb_spec "happy" mood) as [Eh|Eh];
    [|destruct (String.eqb_spec "sad" mood) as [Es|Es]];
    cbn [rbind Dict.get];
    try (destruct (String.eqb_spec "english" language) as [Ee|Ee];
         [|destruct (String.eqb_spec "hindi" language) as [Ei|Ei]]);
    try reflexivity;
    destruct H as [[H1 H2]|[H1 H2]]; congruence.
Qed.

Lemma unknown_mood_or_language_witness :
  search_songs_by_language catalog_up "angry" "english" 3 start
  = (Return [], start)
  /\ search_songs_by_language catalog_up "happy" "tamil" 3 start
     = (Return [], start).
Proof.
  split.
  - apply (unknown_mood_or_language catalog_up "angry" "english" 3 start).
    left. split; discriminate.
  - apply (unknown_mood_or_language catalog_up "happy" "tamil" 3 start).
    right. split; discriminate.
Defined.


(* ================================================================== *)
(** ** Sample runs *)

(** Three songs asked for.  The first answer gives two songs (its track
    that is [None] raises in [_create_song] and ends the phrase), the
    second answer gives the third; the two phrases left are not searched. *)
Example run_sad_hindi :
  let run := get_recommendations catalog_up "sad" "hindi" 3 start in
  match fst run with
  | Return result =>
      map Song.title result
      = [JStr "bollywood sad"; JStr "Yeh Dosti"; JStr "Yeh Dosti"]
      /\ map Song.language result = ["hindi"; "hindi"; "hindi"]
      /\ map (fun c => (Call.q c, Call.market c, Call.offset c))
             (calls (snd run))
         = [("bollywood sad", "IN", 3%Z); ("hindi emotional", "IN", 24%Z)]
  | Raise _ => False
  end.
Proof. vm_compute. repeat split. Qed.

(** More songs asked for than the catalog has: every phrase is searched
    and the list stays short. *)
Example run_happy_english :
  let run := get_recommendations catalog_up "happy" "english" 10 start in
  match fst run with
  | Return result =>
      map Song.title result
      = [JStr "happy"; JStr "Yeh Dosti"; JStr "Yeh Dosti"; JStr "upbeat";
         JStr "dance"; JStr "Yeh Dosti"; JStr "Yeh Dosti"; JStr "party"]
      /\ map (fun c => Call.q c) (calls (snd run))
         = ["happy"; "upbeat"; "dance"; "party"]
  | Raise _ => False
  end.
Proof. vm_compute. repeat split. Qed.

(** Fisher-Yates on three tracks with the draws of [catalog_up]. *)
Example run_shuffle :
  fst (shuffle catalog_up (JList [JNum 1; JNum 2; JNum 3]) start)
  = Return (JList [JNum 2; JNum 3; JNum 1]).
Proof. reflexivity. Qed.

(** A count below zero: one search is issued, nothing is collected. *)
Example run_negative_count :
  let run := get_recommendations catalog_up "happy" "english" (-2) start in
  fst run = Return [] /\ List.length (calls (snd run)) = 1.
Proof. vm_compute. repeat split. Qed.

(** The entry with a capital letter in the table of [app.py] never
    matches: the phrase it spells out is classified as "happy" there, and
    as "sad" by [st.py]. *)
Example not_feeling_good :
  detect_mood app_py "I am not feeling good" = Return "happy"
  /\ detect_mood st_py "I am not feeling good" = Return "sad".
Proof. split; reflexivity. Qed.

(* ================================================================== *)
(** ** More about the classifier *)

Section ClassifierMore.

Lemma lower_char_idempotent (c : ascii) :
  Str.lower_char (Str.lower_char c) = Str.lower_char c.
Proof.
  destruct c as [b0 b1 b2 b3 b4 b5 b6 b7].
  destruct b0, b1, b2, b3, b4, b5, b6, b7; reflexivity.
Qed.

Lemma lower_idempotent (s : string) : Str.lower (Str.lower s) = Str.lower s.
Proof.
  induction s as [|c s IH]; [reflexivity|].
  cbn [Str.lower]. now rewrite lower_char_idempotent, IH.
Qed.

Lemma lower_app (s t : string) :
  Str.lower (s ++ t) = (Str.lower s ++ Str.lower t)%string.
Proof.
  induction s as [|c s IH]; [reflexivity|].
  cbn [Str.lower String.append]. now rewrite IH.
Qed.

Lemma startswith_app (p s : string) : Str.startswith p (p ++ s) = true.
Proof.
  induction p as [|c p IH]; [reflexivity|].
  cbn [Str.startswith String.append]. now rewrite Ascii.eqb_refl, IH.
Qed.

Lemma contains_startswith (p s : string) :
  Str.startswith p s = true -> Str.contains p s = true.
Proof. intros H. destruct s; cbn [Str.contains]; now rewrite H. Qed.

Lemma contains_after (p pre s : string) :
  Str.contains p s = true -> Str.contains p (pre ++ s) = true.
Proof.
  intros H. induction pre as [|c pre IH]; [exact H|].
  cbn [String.append Str.contains]. rewrite IH. apply orb_true_r.
Qed.

Lemma contains_inside (p pre post : string) :
  Str.contains p (pre ++ p ++ post) = true.
Proof.
  apply contains_after, contains_startswith, startswith_app.
Qed.

(** A text that starts with a string starts with each of its beginnings. *)
Lemma startswith_shorter (p q s : string) :
  Str.startswith (p ++ q) s = true -> Str.startswith p s = true.
Proof.
  revert s. induction p as [|c p IH]; intros s; [reflexivity|].
  destruct s as [|b s]; cbn [Str.startswith String.append];
    [discriminate|].
  intros H. apply andb_true_iff in H as [Hc Hp].
  now rewrite Hc, (IH s Hp).
Qed.

Lemma contains_shorter (p q s : string) :
  Str.contains (p ++ q) s = true -> Str.contains p s = true.
Proof.
  induction s as [|b s IH]; cbn [Str.contains]; intros H.
  - rewrite orb_false_r in H |- *. exact (startswith_shorter p q _ H).
  - apply orb_true_iff in H as [H|H].
    + now rewrite (startswith_shorter p q _ H).
    + rewrite (IH H). apply orb_true_r.
Qed.

Lemma keyword_score_In (keywords : list string) (keyword text : string) :
  In keyword keywords ->
  Str.contains keyword text = true ->
  1 <= keyword_score keywords text.
Proof.
  intros Hin Hc.
  destruct (keyword_score keywords text) as [|n] eqn:E; [|lia].
  apply keyword_score_zero in E.
  assert (H : existsb (fun k => Str.contains k text) keywords = true).
  { apply existsb_exists. now exists keyword. }
  congruence.
Qed.

End ClassifierMore.

(** X1.  [detect_mood] never raises and never answers anything but one of
    the two labels "happy" and "sad", whatever the text. *)
Theorem detect_mood_two_labels (src : source_file) (s : string) :
  detect_mood src s = Return "happy" \/ detect_mood src s = Return "sad".
Proof.
  rewrite detect_mood_scores. unfold label_of.
  destruct (_ && _); [now left|].
  destruct (_ <? _); [now right|now left].
Qed.

(** X2.  The answer is "sad" exactly when the sad score is larger than
    the happy score that counts (zero when the text holds a negation
    marker); on a tie, also a tie of scores that are not zero, the
    answer is "happy". *)
Theorem detect_mood_sad_iff (src : source_file) (s : string) :
  detect_mood src s = Return "sad"
  <-> (if has_negation s then 0 else happy_score s) < sad_score src s.
Proof.
  rewrite detect_mood_scores. unfold label_of.
  set (h := if has_negation s then 0 else happy_score s).
  set (sd := sad_score src s).
  destruct (Nat.eqb_spec h 0) as [Eh|Eh];
    destruct (Nat.eqb_spec sd 0) as [Es|Es]; cbn [andb];
    try destruct (Nat.ltb_spec h sd) as [Hlt|Hge];
    split; intros H; try discriminate; try reflexivity; lia.
Qed.

(** X3.  Lower-casing the text beforehand, as the console loop does,
    changes nothing: [detect_mood] lower-cases it itself, and lower-casing
    twice is lower-casing once. *)
Theorem detect_mood_lower (src : source_file) (s : string) :
  detect_mood src (Str.lower s) = detect_mood src s.
Proof.
  rewrite !detect_mood_scores.
  unfold has_negation, happy_score, sad_score.
  now rewrite lower_idempotent.
Qed.

(** X4.  The negation test is the test for "no" alone: a text that holds
    "not" holds "no", so the first half of the condition decides nothing,
    and any word with "no" in it (as in "know" or "enough") counts as a
    negation marker. *)
Theorem negation_is_no (s : string) :
  has_negation s = Str.contains "no" (Str.lower s)
  /\ (forall pre post,
        has_negation (pre ++ "no" ++ post) = true).
Proof.
  split.
  - unfold has_negation, negated.
    destruct (Str.contains "not" (Str.lower s)) eqn:E; [|reflexivity].
    symmetry. exact (contains_shorter "no" "t" _ E).
  - intros pre post. unfold has_negation, negated.
    rewrite !lower_app.
    change (Str.lower "no") with "no".
    rewrite (contains_inside "no"). apply orb_true_r.
Qed.

(** X5.  A keyword counts wherever it stands and however it is cased:
    a text with a word [w] in it whose lower-case form is one of the
    keywords scores at least one for that list, also when [w] is part of
    a longer word. *)
Theorem keyword_counts_anywhere
  (keywords : list string) (pre w post : string) :
  In (Str.lower w) keywords ->
  1 <= keyword_score keywords (Str.lower (pre ++ w ++ post)).
Proof.
  intros Hin.
  apply (keyword_score_In keywords (Str.lower w)); [exact Hin|].
  rewrite !lower_app. apply contains_inside.
Qed.

Lemma keyword_counts_anywhere_witness :
  1 <= keyword_score happy_keywords (Str.lower ("so un" ++ "HAPPY" ++ " now")).
Proof.
  apply (keyword_counts_anywhere happy_keywords "so un" "HAPPY" " now").
  vm_compute. tauto.
Defined.

(** X6.  The entry "I am not feeling good" of the sad keywords of
    [app.py] is dead: the text is lower-cased before the search, so a
    keyword with a capital letter never occurs in it, and the sad score
    of [app.py] is the score of the nine other entries. *)
Theorem capital_keyword_is_dead (s : string) :
  Str.contains "I am not feeling good" (Str.lower s) = false
  /\ sad_score app_py s
     = keyword_score
         ["sad"; "down"; "depressed"; "melancholic"; "heartbroken";
          "upset"; "bad"; "lonely"; "stressed"] (Str.lower s).
Proof.
  assert (H : Str.contains "I am not feeling good" (Str.lower s) = false)
    by now apply capital_I_never_matches.
  split; [exact H|].
  unfold sad_score, sad_keywords.
  repeat rewrite keyword_score_cons. unfold hit at 6. rewrite H. lia.
Qed.

(** X7.  Where the two files differ it is [st.py] that says "sad": a text
    [app.py] classifies as "sad" is classified as "sad" by [st.py] too. *)
Theorem detect_mood_sad_in_both (s : string) :
  detect_mood app_py s = Return "sad" -> detect_mood st_py s = Return "sad".
Proof. exact (detect_mood_sad_carries_over s). Qed.

Lemma detect_mood_sad_in_both_witness :
  detect_mood st_py "bad day, nothing good" = Return "sad".
Proof.
  apply (detect_mood_sad_in_both "bad day, nothing good"). reflexivity.
Defined.

(* ================================================================== *)
(** ** More about [_create_song] *)

(** A track that gives a song has the four keys the song is read from. *)
Lemma create_song_keys
  (d : Dict.t json) (mood language : string) (song : Song.t) :
  _create_song (JDict d) mood language = Return song ->
  forall key,
    In key ["name"; "artists"; "uri"; "external_urls"] ->
    Dict.mem d key = true.
Proof.
  unfold _create_song. cbn [Py.getitem Py.get].
  unfold Dict.getitem.
  destruct (Dict.get d "name") as [name|] eqn:En; [|discriminate].
  destruct (Dict.get d "artists") as [artists|] eqn:Ea; [|discriminate].
  cbn [rbind].
  destruct (Py.iter artists) as [l|]; [|discriminate]. cbn [rbind].
  destruct (Py.comprehension _ l) as [names|]; [|discriminate].
  cbn [rbind].
  destruct (Py.join ", " names) as [artist|]; [|discriminate].
  cbn [rbind].
  destruct (Dict.get d "uri") as [uri|] eqn:Eu; [|discriminate].
  destruct (Dict.get d "external_urls") as [urls|] eqn:Ee; [|discriminate].
  intros _ key Hkey. cbn [In] in Hkey. unfold Dict.mem.
  destruct Hkey as [<-|[<-|[<-|[<-|[]]]]];
    [now rewrite En|now rewrite Ea|now rewrite Eu|now rewrite Ee].
Qed.

(** X8.  A song is built only from a dictionary that has the keys "name",
    "artists", "uri" and "external_urls" (with "spotify" under it), and
    its fields are the values found there, unchanged: a "preview_url"
    that is present is copied as it is (also [None]), and only a missing
    one becomes the empty string. *)
Theorem create_song_fields
  (track : json) (mood language : string) (song : Song.t) :
  _create_song track mood language = Return song ->
  exists d,
    track = JDict d
    /\ Dict.get d "name" = Some (Song.title song)
    /\ Dict.mem d "artists" = true
    /\ Dict.get d "uri" = Some (Song.spotify_uri song)
    /\ (exists urls,
          Dict.get d "external_urls" = Some urls
          /\ Py.getitem urls "spotify" = Return (Song.spotify_url song))
    /\ Song.preview_url song
       = match Dict.get d "preview_url" with
         | Some url => url
         | None => JStr ""
         end.
Proof.
  destruct track as [| | | | |d]; try discriminate.
  unfold _create_song. cbn [Py.getitem Py.get].
  unfold Dict.getitem.
  destruct (Dict.get d "name") as [name|] eqn:En; [|discriminate].
  destruct (Dict.get d "artists") as [artists|] eqn:Ea; [|discriminate].
  cbn [rbind].
  destruct (Py.iter artists) as [l|]; [|discriminate]. cbn [rbind].
  destruct (Py.comprehension _ l) as [names|]; [|discriminate].
  cbn [rbind].
  destruct (Py.join ", " names) as [artist|]; [|discriminate].
  cbn [rbind].
  destruct (Dict.get d "uri") as [uri|] eqn:Eu; [|discriminate].
  destruct (Dict.get d "external_urls") as [urls|] eqn:Ee; [|discriminate].
  cbn [rbind].
  destruct (Py.getitem urls "spotify") as [url|] eqn:Eurl; [|discriminate].
  cbn [rbind]. intros E. injection E as <-.
  exists d. cbn [Song.title Song.spotify_uri Song.spotify_url
                 Song.preview_url].
  unfold Dict.mem. rewrite En, Ea, Eu, Ee.
  split; [reflexivity|]. split; [reflexivity|]. split; [reflexivity|].
  split; [reflexivity|]. split; [now exists urls|reflexivity].
Qed.

Lemma create_song_fields_witness :
  exists d,
    sample_track "Dil Se" = JDict d
    /\ Dict.get d "name" = Some (JStr "Dil Se")
    /\ Dict.mem d "artists" = true
    /\ Dict.get d "uri" = Some (JStr "spotify:track:4uLU6hMCjMI75M1A2tKUQC")
    /\ (exists urls,
          Dict.get d "external_urls" = Some urls
          /\ Py.getitem urls "spotify"
             = Return (JStr "https://open.spotify.com/track/4uLU6hMC"))
    /\ JNull
       = match Dict.get d "preview_url" with
         | Some url => url
         | None => JStr ""
         end.
Proof.
  exact (create_song_fields (sample_track "Dil Se") "sad" "hindi"
           (Song.make (JStr "Dil Se") "Asha Bhosle, Kishore Kumar"
              "sad" "hindi" (JStr "spotify:track:4uLU6hMCjMI75M1A2tKUQC")
              (JStr "https://open.spotify.com/track/4uLU6hMC") JNull)
           eq_refl).
Defined.

(** X9.  [_create_song] raises [TypeError] on a track that is not a
    dictionary (an entry [None] of the answer, say), [KeyError] on a
    dictionary without "name", and some exception whenever one of "name",
    "artists", "uri", "external_urls" is missing. *)
Theorem create_song_failures (mood language : string) :
  (forall track,
      (forall d, track <> JDict d) ->
      _create_song track mood language = Raise TypeError)
  /\ (forall d,
        Dict.mem d "name" = false ->
        _create_song (JDict d) mood language = Raise KeyError)
  /\ (forall d key,
        In key ["name"; "artists"; "uri"; "external_urls"] ->
        Dict.mem d key = false ->
        exists e, _create_song (JDict d) mood language = Raise e).
Proof.
  split; [|split].
  - intros track H. destruct track as [| | | | |d]; try reflexivity.
    now destruct (H d).
  - intros d H. unfold _create_song. cbn [Py.getitem].
    unfold Dict.getitem, Dict.mem in *.
    destruct (Dict.get d "name"); [discriminate|reflexivity].
  - intros d key Hkey Hmem.
    destruct (_create_song (JDict d) mood language) as [song|e] eqn:E;
      [|now exists e].
    pose proof (create_song_keys d mood language song E key Hkey).
    congruence.
Qed.

Lemma create_song_failures_witness :
  _create_song JNull "happy" "english" = Raise TypeError
  /\ _create_song (JDict [("uri", JStr "spotify:track:7")]) "happy" "english"
     = Raise KeyError
  /\ exists e,
       _create_song
         (JDict [("name", JStr "Tum Hi Ho");
                 ("artists", JList [JDict [("name", JStr "Arijit Singh")]]);
                 ("external_urls", JDict [("spotify", JStr "https://x.y")])])
         "sad" "hindi" = Raise e.
Proof.
  destruct (create_song_failures "happy" "english") as (Hnot & Hname & _).
  destruct (create_song_failures "sad" "hindi") as (_ & _ & Hkey).
  split; [|split].
  - apply Hnot. discriminate.
  - apply Hname. reflexivity.
  - apply (Hkey _ "uri"); [cbn; tauto|reflexivity].
Defined.

(* ================================================================== *)
(** ** More about a run: what is searched and what is collected *)

Section RunMore.

Variables (env : Env) (mood language : string) (num_songs : Z).

Lemma shuffle_frame (x : json) (st : State) :
  songs (snd (shuffle env x st)) = songs st
  /\ calls (snd (shuffle env x st)) = calls st.
Proof.
  split.
  - now apply (shuffle_inv env (fun s => songs s = songs st)).
  - now apply (shuffle_inv env (fun s => calls s = calls st)).
Qed.

(** The track loop appends the songs of the tracks it is given, in order,
    until the list is full or a track fails; it touches nothing else. *)
Lemma track_loop_state (tracks : list json) :
  forall st,
    snd (track_loop mood language num_songs tracks st)
    = {| songs := songs st
                  ++ firstn (room num_songs (songs st))
                       (songs_until_failure mood language tracks);
         draws := draws st;
         calls := calls st |}.
Proof.
  induction tracks as [|track tracks IH]; intros st.
  - cbn. rewrite firstn_nil, app_nil_r. now destruct st.
  - cbn [track_loop songs_until_failure]. rewrite bind_run.
    cbn [get_songs]. unfold room.
    destruct (Z.leb_spec num_songs (Z.of_nat (List.length (songs st))))
      as [Hfull|Hroom].
    + cbn [ret snd].
      replace (Z.to_nat _) with 0 by lia.
      cbn [firstn]. rewrite app_nil_r. now destruct st.
    + rewrite bind_run. unfold lift at 1.
      destruct (_create_song track mood language) as [song|e].
      * rewrite bind_run. cbn [append_song]. rewrite IH.
        cbn [songs draws calls]. unfold room.
        rewrite length_app. cbn [List.length].
        replace (Z.to_nat (num_songs - Z.of_nat (List.length (songs st))))
          with (S (Z.to_nat (num_songs
                             - Z.of_nat (List.length (songs st) + 1))))
          by lia.
        cbn [firstn]. now rewrite <- app_assoc.
      * cbn [snd firstn]. rewrite firstn_nil, app_nil_r. now destruct st.
Qed.

Lemma track_loop_returns (tracks : list json) :
  Forall (fun track => exists song,
              _create_song track mood language = Return song) tracks ->
  forall st, fst (track_loop mood language num_songs tracks st) = Return tt.
Proof.
  induction 1 as [|track tracks [song Hsong] _ IH]; intros st;
    [reflexivity|].
  cbn [track_loop]. rewrite bind_run. cbn [get_songs].
  destruct (num_songs <=? _)%Z; [reflexivity|].
  rewrite bind_run. unfold lift at 1. rewrite Hsong.
  rewrite bind_run. cbn [append_song]. apply IH.
Qed.

Lemma songs_until_failure_all (tracks : list json) :
  Forall (fun track => exists song,
              _create_song track mood language = Return song) tracks ->
  List.length (songs_until_failure mood language tracks)
  = List.length tracks.
Proof.
  induction 1 as [|track tracks [song Hsong] _ IH]; [reflexivity|].
  cbn [songs_until_failure]. rewrite Hsong. cbn. now rewrite IH.
Qed.

(** One search whose answer lists [tracks]: the tracks are shuffled, and
    their songs are collected as by [track_loop]. *)
Lemma search_and_collect_answer
  (query market : string) (offset : Z) (st : State)
  (results : json) (tracks : list json) :
  spotify_search env (List.length (calls st))
    (Call.make query "track" market 10 offset) = Return results ->
  has_items results = Return true ->
  items_of results = Return (JList tracks) ->
  exists shuffled st',
    Permutation tracks shuffled
    /\ search_and_collect env mood language num_songs query market offset st
       = (fst (track_loop mood language num_songs shuffled st'), 
          {| songs := songs st
                      ++ firstn (room num_songs (songs st))
                           (songs_until_failure mood language shuffled);
             draws := draws st';
             calls := calls st
                      ++ [Call.make query "track" market 10 offset] |})
    /\ songs st' = songs st.
Proof.
  intros Hsearch Hitems Htracks.
  unfold search_and_collect. rewrite bind_run. cbn [search].
  rewrite Hsearch, bind_run. unfold lift at 1. rewrite Hitems.
  rewrite bind_run. unfold lift at 1.
  unfold items_of in Htracks. rewrite Htracks.
  rewrite bind_run.
  set (st1 := Build_State _ _ _).
  destruct (shuffle_list env tracks st1)
    as (shuffled & st2 & Hrun & Hperm & Hsongs & Hcalls).
  rewrite Hrun, bind_run. unfold lift at 1. cbn [Py.iter].
  exists shuffled, st2. split; [exact Hperm|]. split; [|exact Hsongs].
  rewrite (surjective_pairing (track_loop _ _ _ shuffled st2)).
  now rewrite track_loop_state, Hsongs, Hcalls.
Qed.

(** Whatever the answer, one search is logged, with the given arguments. *)
Lemma search_and_collect_calls
  (query market : string) (offset : Z) (st : State) :
  calls (snd (search_and_collect env mood language num_songs
                query market offset st))
  = calls st ++ [Call.make query "track" market 10 offset].
Proof.
  unfold search_and_collect. rewrite bind_run. cbn [search].
  set (st1 := Build_State _ _ _).
  destruct (spotify_search env _ _) as [results|e]; [|reflexivity].
  rewrite bind_run. unfold lift at 1.
  destruct (has_items results) as [[|]|e]; try reflexivity.
  rewrite bind_run. unfold lift at 1.
  destruct (rbind _ _) as [tracks|e]; [|reflexivity].
  rewrite bind_run.
  destruct (shuffle_frame tracks st1) as [_ Hcalls].
  destruct (shuffle env tracks st1) as [[tracks'|e] st2];
    cbn [snd] in *; [|exact Hcalls].
  rewrite bind_run. unfold lift at 1.
  destruct (Py.iter tracks') as [l|e]; [|exact Hcalls].
  now rewrite track_loop_state.
Qed.

(** The phrases searched are the first [k] of the list, in order, one
    search each; the first phrase is always searched. *)
Lemma phrase_loop_prefix (terms : list string) :
  forall st,
    exists k l,
      k <= List.length terms
      /\ (terms <> [] -> 1 <= k)
      /\ calls (snd (phrase_loop env mood language num_songs terms st))
         = calls st ++ l
      /\ map Call.q l = firstn k terms.
Proof.
  induction terms as [|term terms IH]; intros st.
  - exists 0, []. cbn. rewrite app_nil_r.
    split; [lia|]. split; [intros H; now destruct H|]. now split.
  - cbn [phrase_loop]. rewrite bind_run, randint_0_50_run.
    set (offset := (0 + Z.of_nat _)%Z).
    set (st1 := Build_State _ _ _).
    rewrite bind_run, try_except_run, bind_run.
    pose proof (search_and_collect_calls term (market_of language)
                  offset st1) as Hcalls.
    destruct (search_and_collect env mood language num_songs term
                (market_of language) offset st1) as [[[]|e] st2];
      cbn [ret snd] in *.
    + rewrite bind_run. cbn [get_songs].
      destruct (num_songs <=? Z.of_nat (List.length (songs st2)))%Z.
      * exists 1, [Call.make term "track" (market_of language) 10 offset].
        cbn [snd List.length firstn map Call.q].
        split; [lia|]. split; [intros _; lia|]. split; [exact Hcalls|].
        reflexivity.
      * destruct (IH st2) as (k & l & Hk & _ & Hl & Hq).
        exists (S k),
          (Call.make term "track" (market_of language) 10 offset :: l).
        cbn [List.length firstn map Call.q].
        split; [lia|]. split; [intros _; lia|].
        split; [|now rewrite Hq].
        rewrite Hl, Hcalls, <- app_assoc. reflexivity.
    + destruct (IH st2) as (k & l & Hk & _ & Hl & Hq).
      exists (S k),
        (Call.make term "track" (market_of language) 10 offset :: l).
      cbn [List.length firstn map Call.q].
      split; [lia|]. split; [intros _; lia|].
      split; [|now rewrite Hq].
      rewrite Hl, Hcalls, <- app_assoc. reflexivity.
Qed.

(** Every list of phrases in the configuration table has three to five
    entries. *)
Lemma search_terms_size (terms : list string) :
  search_terms mood language = Return terms ->
  3 <= List.length terms <= 5.
Proof.
  unfold search_terms, mood_config, mood_map, Dict.getitem.
  cbn [Dict.get].
  destruct (String.eqb "happy" mood); [|destruct (String.eqb "sad" mood)];
    cbn [rbind Dict.get];
    try (destruct (String.eqb "english" language);
         [|destruct (String.eqb "hindi" language)]);
    cbn [rbind Dict.get String.eqb Ascii.eqb Bool.eqb];
    intros E; try discriminate; injection E as <-; cbn; lia.
Qed.

End RunMore.

Section FirstAnswer.

Variables (env : Env) (mood language : string) (num_songs : Z).

(** The run when the first search is answered with enough tracks that
    all give songs: the first [num_songs] of them, in shuffled order, are
    returned, and no second search is issued. *)
Lemma first_answer_run
  (st : State) (term : string) (rest : list string)
  (results : json) (tracks : list json) :
  search_terms mood language = Return (term :: rest) ->
  (forall call,
      spotify_search env (List.length (calls st)) call = Return results) ->
  has_items results = Return true ->
  items_of results = Return (JList tracks) ->
  Forall (fun track => exists song,
              _create_song track mood language = Return song) tracks ->
  (0 < num_songs <= Z.of_nat (List.length tracks))%Z ->
  exists shuffled st',
    Permutation tracks shuffled
    /\ search_songs_by_language env mood language num_songs st
       = (Return (firstn (Z.to_nat num_songs)
                    (songs_until_failure mood language shuffled)), st')
    /\ List.length (issued st st') = 1.
Proof.
  intros Hterms Hsearch Hitems Htracks Hall Hn.
  unfold search_songs_by_language.
  rewrite try_except_run, bind_run. cbn [set_songs].
  rewrite bind_run. unfold lift at 1.
  unfold search_terms in Hterms.
  destruct (mood_config mood language) as [config|e]; [|discriminate].
  cbn [rbind] in Hterms.
  rewrite bind_run. unfold lift at 1. rewrite Hterms.
  rewrite bind_run. cbn [phrase_loop].
  rewrite bind_run, randint_0_50_run. cbn [songs draws calls].
  set (offset := (0 + Z.of_nat _)%Z).
  set (st1 := Build_State _ _ _).
  destruct (search_and_collect_answer env mood language num_songs
              term (market_of language) offset st1 results tracks
              (Hsearch _) Hitems Htracks)
    as (shuffled & st2 & Hperm & Hrun & Hsongs).
  assert (Hall' : Forall (fun track => exists song,
                      _create_song track mood language = Return song)
                    shuffled)
    by exact (Permutation_Forall Hperm Hall).
  rewrite (track_loop_returns mood language num_songs shuffled Hall') in Hrun.
  pose proof (songs_until_failure_all mood language shuffled Hall') as Hlen.
  pose proof (Permutation_length Hperm) as Hplen.
  subst st1. cbn [songs draws calls app] in Hrun.
  unfold room in Hrun. cbn [List.length] in Hrun.
  replace (Z.to_nat (num_songs - Z.of_nat 0)) with (Z.to_nat num_songs)
    in Hrun by lia.
  set (found := firstn (Z.to_nat num_songs)
                  (songs_until_failure mood language shuffled)) in *.
  assert (Hfound : List.length found = Z.to_nat num_songs).
  { unfold found. rewrite length_firstn. lia. }
  rewrite bind_run, try_except_run, bind_run, Hrun.
  cbn [ret]. rewrite bind_run. cbn [get_songs songs].
  replace (num_songs <=? Z.of_nat (List.length found))%Z with true
    by (symmetry; apply Z.leb_le; lia).
  cbn [ret]. rewrite bind_run. cbn [get_songs ret songs].
  exists shuffled. eexists. split; [exact Hperm|]. split.
  - f_equal. f_equal. unfold Py.slice_to.
    replace (0 <=? num_songs)%Z with true by (symmetry; apply Z.leb_le; lia).
    unfold found. rewrite firstn_firstn. now rewrite Nat.min_id.
  - unfold issued. cbn [calls].
    rewrite skipn_app, skipn_all, Nat.sub_diag. reflexivity.
Qed.

End FirstAnswer.

(** The queries of a run are a beginning of the configured list, and the
    first phrase is always searched. *)
Lemma run_prefix
  (env : Env) (mood language : string) (num_songs : Z) (st : State)
  (terms : list string) :
  search_terms mood language = Return terms ->
  exists k,
    1 <= k <= List.length terms
    /\ map Call.q
         (issued st
            (snd (search_songs_by_language env mood language num_songs st)))
       = firstn k terms.
Proof.
  intros Hterms.
  pose proof (search_terms_size mood language terms Hterms) as Hsize.
  unfold search_songs_by_language.
  rewrite try_except_run, bind_run. cbn [set_songs].
  rewrite bind_run. unfold lift at 1.
  unfold search_terms in Hterms.
  destruct (mood_config mood language) as [config|e]; [|discriminate].
  cbn [rbind] in Hterms.
  rewrite bind_run. unfold lift at 1. rewrite Hterms.
  rewrite bind_run.
  set (st0 := Build_State _ _ _).
  destruct (phrase_loop_prefix env mood language num_songs terms st0)
    as (k & l & Hk & Hk1 & Hl & Hq).
  destruct (phrase_loop env mood language num_songs terms st0)
    as [[[]|e] st'] eqn:Hrun; cbn [snd] in Hl.
  - rewrite bind_run. cbn [get_songs ret snd].
    exists k. split.
    + split; [|exact Hk]. apply Hk1. intros ->. cbn in Hsize. lia.
    + now rewrite (issued_app st st' l Hl).
  - cbn [ret snd].
    exists k. split.
    + split; [|exact Hk]. apply Hk1. intros ->. cbn in Hsize. lia.
    + now rewrite (issued_app st st' l Hl).
Qed.

(** X10.  The phrases are searched in the order of the configuration
    table, one search each and none twice: the queries of a run are a
    beginning of the configured list, and the first phrase is always
    searched, whatever count is asked for. *)
Theorem searches_follow_the_table
  (env : Env) (mood language : string) (num_songs : Z) (st : State)
  (terms : list string) :
  search_terms mood language = Return terms ->
  exists k,
    1 <= k <= List.length terms
    /\ map Call.q
         (issued st
            (snd (search_songs_by_language env mood language num_songs st)))
       = firstn k terms.
Proof. exact (run_prefix env mood language num_songs st terms). Qed.

Lemma searches_follow_the_table_witness :
  exists k,
    1 <= k <= 4
    /\ map Call.q
         (issued start
            (snd (search_songs_by_language catalog_up "sad" "hindi" 3 start)))
       = firstn k ["bollywood sad"; "hindi emotional"; "bollywood classical";
                   "dard bhare gane"].
Proof.
  exact (searches_follow_the_table catalog_up "sad" "hindi" 3 start
           ["bollywood sad"; "hindi emotional"; "bollywood classical";
            "dard bhare gane"] eq_refl).
Defined.

(** X11.  Every search a run issues asks for tracks, ten at a time, from
    an offset between 0 and 50. *)
Theorem searches_well_parametrized
  (env : Env) (mood language : string) (num_songs : Z) (st : State) :
  Forall well_parametrized
    (issued st
       (snd (search_songs_by_language env mood language num_songs st))).
Proof.
  destruct (search_songs_inv env mood language num_songs
              (fun st' => exists l,
                   calls st' = calls st ++ l
                   /\ Forall well_parametrized l))
    with (st := st) as (result & st' & Hrun & (l & Hl & Hok) & _).
  - intros s (l & Hl & Hok). exists l. now split.
  - intros s query offset (l & Hl & Hok) _ Ho.
    exists (l ++ [call_for language query offset]). cbn [calls]. split.
    + now rewrite Hl, app_assoc.
    + apply Forall_app. split; [exact Hok|].
      constructor; [|constructor]. now repeat split.
  - intros s track song (l & Hl & Hok) _ _. exists l. now split.
  - exists []. cbn [calls]. split; [now rewrite app_nil_r|constructor].
  - rewrite Hrun. cbn [snd]. now rewrite (issued_app st st' l Hl).
Qed.

(** X12.  When the first search is answered with at least as many tracks
    as songs are asked for, and every track gives a song, the run returns
    exactly that many songs, the first of the shuffled answer, and stops
    after this one search. *)
Theorem first_answer_suffices
  (env : Env) (mood language : string) (num_songs : Z) (st : State)
  (term : string) (rest : list string)
  (results : json) (tracks : list json) :
  search_terms mood language = Return (term :: rest) ->
  (forall call,
      spotify_search env (List.length (calls st)) call = Return results) ->
  has_items results = Return true ->
  items_of results = Return (JList tracks) ->
  Forall (fun track => exists song,
              _create_song track mood language = Return song) tracks ->
  (0 < num_songs <= Z.of_nat (List.length tracks))%Z ->
  exists result st',
    search_songs_by_language env mood language num_songs st
    = (Return result, st')
    /\ Z.of_nat (List.length result) = num_songs
    /\ List.length (issued st st') = 1
    /\ exists shuffled,
         Permutation tracks shuffled
         /\ result = firstn (Z.to_nat num_songs)
                       (songs_until_failure mood language shuffled).
Proof.
  intros Hterms Hsearch Hitems Htracks Hall Hn.
  destruct (first_answer_run env mood language num_songs st term rest
              results tracks Hterms Hsearch Hitems Htracks Hall Hn)
    as (shuffled & st' & Hperm & Hrun & Hone).
  eexists. exists st'. split; [exact Hrun|].
  split; [|split; [exact Hone|]].
  - rewrite length_firstn.
    rewrite (songs_until_failure_all mood language shuffled
               (Permutation_Forall Hperm Hall)).
    pose proof (Permutation_length Hperm). lia.
  - exists shuffled. now split.
Qed.

Lemma first_answer_suffices_witness :
  exists result st',
    search_songs_by_language catalog_rich "happy" "english" 3 start
    = (Return result, st')
    /\ Z.of_nat (List.length result) = 3%Z
    /\ List.length (issued start st') = 1
    /\ exists shuffled,
         Permutation
           [sample_track "Lag Ja Gale"; sample_track "Kal Ho Naa Ho";
            sample_track "Tujhe Dekha To"; sample_track "Chaiyya Chaiyya"]
           shuffled
         /\ result = firstn (Z.to_nat 3)
                       (songs_until_failure "happy" "english" shuffled).
Proof.
  apply (first_answer_suffices catalog_rich "happy" "english" 3 start
           "happy" ["upbeat"; "dance"; "party"]
           (answer [sample_track "Lag Ja Gale"; sample_track "Kal Ho Naa Ho";
                    sample_track "Tujhe Dekha To";
                    sample_track "Chaiyya Chaiyya"])).
  - reflexivity.
  - intros call. reflexivity.
  - reflexivity.
  - reflexivity.
  - repeat constructor; eexists; reflexivity.
  - cbn. lia.
Defined.

(** X13.  Nothing removes duplicates: when the first answer lists the
    same track twice and two songs are asked for, the run returns the
    song of that track twice. *)
Theorem duplicates_are_kept
  (env : Env) (mood language : string) (st : State)
  (term : string) (rest : list string)
  (results track : json) (song : Song.t) :
  search_terms mood language = Return (term :: rest) ->
  (forall call,
      spotify_search env (List.length (calls st)) call = Return results) ->
  has_items results = Return true ->
  items_of results = Return (JList [track; track]) ->
  _create_song track mood language = Return song ->
  fst (search_songs_by_language env mood language 2 st)
  = Return [song; song].
Proof.
  intros Hterms Hsearch Hitems Htracks Hsong.
  destruct (first_answer_run env mood language 2 st term rest
              results [track; track] Hterms Hsearch Hitems Htracks)
    as (shuffled & st' & Hperm & Hrun & _).
  - repeat constructor; now exists song.
  - cbn. lia.
  - rewrite Hrun. cbn [fst].
    assert (Hsh : shuffled = [track; track]).
    { apply Permutation_length_2_inv in Hperm. now destruct Hperm. }
    subst shuffled. cbn [songs_until_failure]. rewrite Hsong.
    reflexivity.
Qed.

Lemma duplicates_are_kept_witness :
  exists song,
    _create_song (sample_track "Lag Ja Gale") "sad" "hindi" = Return song
    /\ fst (search_songs_by_language catalog_twice "sad" "hindi" 2 start)
       = Return [song; song].
Proof.
  eexists. split; [reflexivity|].
  apply (duplicates_are_kept catalog_twice "sad" "hindi" start
           "bollywood sad"
           ["hindi emotional"; "bollywood classical"; "dard bhare gane"]
           (answer [sample_track "Lag Ja Gale"; sample_track "Lag Ja Gale"])
           (sample_track "Lag Ja Gale")).
  - reflexivity.
  - intros call. reflexivity.
  - reflexivity.
  - reflexivity.
  - reflexivity.
Defined.

(** X14.  What one answered search adds: the tracks of the answer are
    shuffled, and the songs of the shuffled tracks are appended in order
    until the list is full or a track fails; the tracks behind a failing
    one are not looked at, and songs collected before stay. *)
Theorem answer_contribution
  (env : Env) (mood language : string) (num_songs : Z)
  (query market : string) (offset : Z) (st : State)
  (results : json) (tracks : list json) :
  spotify_search env (List.length (calls st))
    (Call.make query "track" market 10 offset) = Return results ->
  has_items results = Return true ->
  items_of results = Return (JList tracks) ->
  exists shuffled,
    Permutation tracks shuffled
    /\ songs (snd (search_and_collect env mood language num_songs
                     query market offset st))
       = songs st
         ++ firstn (room num_songs (songs st))
              (songs_until_failure mood language shuffled).
Proof.
  intros Hsearch Hitems Htracks.
  destruct (search_and_collect_answer env mood language num_songs
              query market offset st results tracks
              Hsearch Hitems Htracks)
    as (shuffled & st' & Hperm & Hrun & _).
  exists shuffled. split; [exact Hperm|]. now rewrite Hrun.
Qed.

Lemma answer_contribution_witness :
  exists shuffled,
    Permutation [sample_track "dance"; JNull; sample_track "Yeh Dosti"]
                shuffled
    /\ songs (snd (search_and_collect catalog_up "happy" "english" 3
                     "dance" "US" 7 start))
       = songs start
         ++ firstn (room 3 (songs start))
              (songs_until_failure "happy" "english" shuffled).
Proof.
  apply (answer_contribution catalog_up "happy" "english" 3 "dance" "US" 7
           start
           (answer [sample_track "dance"; JNull; sample_track "Yeh Dosti"]));
    reflexivity.
Defined.

(* ================================================================== *)
(** ** The console session *)

Section Session.

Variable env : Env.

(** The classifier answers with one of the two labels. *)
Lemma detect_mood_label (src : source_file) (s : string) :
  exists mood,
    detect_mood src s = Return mood /\ (mood = "happy" \/ mood = "sad").
Proof.
  rewrite detect_mood_scores. unfold label_of.
  eexists. split; [reflexivity|].
  destruct (_ && _); [now left|].
  destruct (_ <? _); [now right|now left].
Qed.

(** A run in one statement: it returns, the list is short enough, and
    the searches it adds to the log are on the plan. *)
Lemma run_summary (mood language : string) (num_songs : Z) (st : State) :
  exists result st' l,
    get_recommendations env mood language num_songs st = (Return result, st')
    /\ (Z.of_nat (List.length result) <= Z.max 0 num_songs)%Z
    /\ calls st' = calls st ++ l
    /\ Forall (on_plan mood language) l.
Proof.
  unfold get_recommendations.
  destruct (search_songs_inv env mood language num_songs
              (fun st' =>
                 (Z.of_nat (List.length (songs st')) <= Z.max 0 num_songs)%Z
                 /\ exists l,
                      calls st' = calls st ++ l
                      /\ Forall (on_plan mood language) l))
    with (st := st)
    as (result & st' & Hrun & (Hlen & l & Hl & Hok) & Hres).
  - intros s H. exact H.
  - intros s query offset (Hlen & l & Hl & Hok) Hq _.
    split; [exact Hlen|].
    exists (l ++ [call_for language query offset]). cbn [calls]. split.
    + now rewrite Hl, app_assoc.
    + apply Forall_app. split; [exact Hok|].
      constructor; [|constructor]. now split.
  - intros s track song (Hlen & l & Hl & Hok) Hroom _. split.
    + cbn [songs]. rewrite length_app. cbn [List.length]. lia.
    + exists l. now split.
  - split; [cbn; lia|]. exists []. cbn [calls].
    split; [now rewrite app_nil_r|constructor].
  - exists result, st', l. split; [exact Hrun|].
    split; [|now split].
    destruct Hres as [-> | ->]; [|cbn; lia].
    now apply slice_to_length.
Qed.

(** The language of a round is one of the two of the table, whatever
    number was entered. *)
Lemma chosen_language (lang_choice : Z) :
  In (if (lang_choice =? 1)%Z then "english" else "hindi")
     ["english"; "hindi"].
Proof. destruct (lang_choice =? 1)%Z; cbn; tauto. Qed.

Lemma table_pair (mood language : string) :
  mood = "happy" \/ mood = "sad" ->
  In language ["english"; "hindi"] ->
  exists terms, search_terms mood language = Return terms.
Proof.
  intros [-> | ->] [<- | [<- | []]]; eexists; reflexivity.
Qed.

(** What a round does once the language is chosen. *)
Lemma turn_run (user_input : string) (lang_choice : Z) (c : Console.t) :
  exists mood result w,
    let language := if (lang_choice =? 1)%Z then "english" else "hindi" in
    (mood = "happy" \/ mood = "sad")
    /\ detect_mood app_py user_input = Return mood
    /\ get_recommendations env mood language 3 (Console.world c)
       = (Return result, w)
    /\ Console.turn env user_input lang_choice c
       = (None,
          {| Console.shown :=
               Console.shown c
               ++ [Console.Print
                     (Console.nl ++ "Detected mood: " ++ mood);
                   Console.Print "Searching for songs..."]
               ++ match result with
                  | _ :: _ =>
                      Console.Print Console.found_header
                      :: Console.show_songs 1 result
                  | [] => [Console.Print Console.nothing_found]
                  end
               ++ [Console.Print Console.separator];
             Console.world := w |}).
Proof.
  destruct (detect_mood_label app_py user_input) as (mood & Hmood & Hlabel).
  set (language := if (lang_choice =? 1)%Z then "english" else "hindi").
  destruct (run_summary mood language 3 (Console.world c))
    as (result & w & l & Hrun & _).
  exists mood, result, w. cbn zeta. fold language.
  split; [exact Hlabel|]. split; [exact Hmood|]. split; [exact Hrun|].
  unfold Console.turn. fold language. rewrite Hmood.
  cbn [Console.print Console.world Console.shown]. rewrite Hrun.
  destruct result as [|song result];
    unfold Console.print, Console.prints;
    cbn [Console.world Console.shown];
    rewrite <- !app_assoc; reflexivity.
Qed.

Section SessionInvariant.

(** A property of the console that reading a line, printing a text and
    a round all keep. *)
Variable Inv : Console.t -> Prop.

Hypothesis Inv_text : forall c o,
  (exists text, o = Console.Print text \/ o = Console.Input text) ->
  Inv c -> Inv (Console.print o c).

Hypothesis Inv_turn : forall c user_input lang_choice,
  Inv c -> Inv (snd (Console.turn env user_input lang_choice c)).

Lemma menu_inv (c : Console.t) :
  Inv c -> Inv (Console.prints Console.menu c).
Proof.
  intros H.
  replace (Console.prints Console.menu c)
    with (Console.print (Console.Print "2) Hindi")
            (Console.print (Console.Print "1) English")
               (Console.print
                  (Console.Print
                     (Console.nl ++ "Select language for recommendations:"))
                  c))).
  - repeat (apply Inv_text; [eexists; left; reflexivity|]). exact H.
  - unfold Console.print, Console.prints, Console.menu.
    cbn [Console.shown Console.world]. now rewrite <- !app_assoc.
Qed.

Lemma loop_inv (stdin : list string) :
  forall ph c, Inv c -> Inv (snd (Console.loop env ph stdin c)).
Proof.
  induction stdin as [|line rest IH]; intros ph c H.
  - destruct ph; cbn [Console.loop snd];
      apply Inv_text; auto; eexists; right; reflexivity.
  - destruct ph as [|user_input]; cbn [Console.loop].
    + assert (H1 : Inv (Console.print (Console.Input Console.mood_prompt) c))
        by (apply Inv_text; auto; eexists; right; reflexivity).
      destruct (String.eqb (Str.lower line) "quit"); [exact H1|].
      apply IH. now apply menu_inv.
    + assert (H1 : Inv (Console.print
                          (Console.Input Console.number_prompt) c))
        by (apply Inv_text; auto; eexists; right; reflexivity).
      destruct (Console.int line) as [n|e].
      * destruct ((n =? 1)%Z || (n =? 2)%Z).
        -- pose proof (Inv_turn _ user_input n H1) as H2.
           destruct (Console.turn env user_input n _) as [[e|] c2];
             cbn [snd] in *; [exact H2|now apply IH].
        -- apply IH. apply Inv_text; auto. eexists; left; reflexivity.
      * destruct e; try exact H1.
        apply IH. apply Inv_text; auto. eexists; left; reflexivity.
Qed.

End SessionInvariant.

End Session.

Section SessionFacts.

Variable env : Env.

Lemma show_songs_count (recommendations : list Song.t) :
  forall i,
    List.length (filter Console.is_song
                   (Console.show_songs i recommendations))
    = List.length recommendations.
Proof.
  induction recommendations as [|song rest IH]; intros i; [reflexivity|].
  cbn [Console.show_songs Console.show_song app filter Console.is_song
       List.length].
  rewrite filter_app, length_app, IH.
  destruct (Py.truthy (Song.preview_url song)); reflexivity.
Qed.

Lemma show_songs_numbers (recommendations : list Song.t) :
  forall i o,
    In o (Console.show_songs i recommendations) ->
    match o with
    | Console.PrintSong k _ _ =>
        i <= k < i + List.length recommendations
    | _ => True
    end.
Proof.
  induction recommendations as [|song rest IH]; intros i o H;
    [destruct H|].
  cbn [Console.show_songs Console.show_song app] in H.
  destruct H as [<-|[<-|H]]; [cbn; lia|exact I|].
  apply in_app_or in H as [H|H].
  - destruct (Py.truthy (Song.preview_url song)); [|destruct H].
    destruct H as [<-|[]]. exact I.
  - specialize (IH (S i) o H). destruct o; auto. cbn [List.length]. lia.
Qed.


(** [int] raises nothing but [ValueError]. *)
Lemma int_raises (s : string) (e : exn) :
  Console.int s = Raise e -> e = ValueError.
Proof.
  unfold Console.int.
  repeat match goal with
         | |- context [match ?x with _ => _ end] => destruct x
         end; congruence.
Qed.

(** The searches of one round. *)
Lemma turn_calls (user_input : string) (lang_choice : Z) (c : Console.t) :
  exists mood l,
    let language := if (lang_choice =? 1)%Z then "english" else "hindi" in
    (mood = "happy" \/ mood = "sad")
    /\ calls (Console.world
                (snd (Console.turn env user_input lang_choice c)))
       = calls (Console.world c) ++ l
    /\ Forall (on_plan mood language) l
    /\ 1 <= List.length l <= 5.
Proof.
  destruct (turn_run env user_input lang_choice c)
    as (mood & result & w & Hlabel & _ & Hrun & Hturn).
  cbn zeta in *.
  set (language := if (lang_choice =? 1)%Z then "english" else "hindi") in *.
  destruct (run_summary env mood language 3 (Console.world c))
    as (result' & w' & l & Hrun' & _ & Hl & Hok).
  rewrite Hrun in Hrun'. injection Hrun' as <- <-.
  exists mood, l. cbn zeta. fold language. rewrite Hturn.
  cbn [snd Console.world].
  split; [exact Hlabel|]. split; [exact Hl|]. split; [exact Hok|].
  destruct (table_pair mood language Hlabel (chosen_language lang_choice))
    as (terms & Hterms).
  destruct (run_prefix env mood language 3 (Console.world c) terms Hterms)
    as (k & Hk & Hq).
  pose proof (search_terms_size mood language terms Hterms) as Hsize.
  unfold get_recommendations in Hrun. rewrite Hrun in Hq. cbn [snd] in Hq.
  rewrite (issued_app _ _ l Hl) in Hq.
  apply (f_equal (@List.length string)) in Hq.
  rewrite length_map, length_firstn in Hq. lia.
Qed.


(** Without a line that reads "quit" the loop is left by the end of the
    input only. *)
Lemma loop_without_quit (stdin : list string) :
  (forall line, In line stdin -> Str.lower line <> "quit") ->
  forall ph c, fst (Console.loop env ph stdin c) = Some Console.EOFError.
Proof.
  induction stdin as [|line rest IH]; intros Hq ph c.
  - destruct ph; reflexivity.
  - assert (Hrest : forall l, In l rest -> Str.lower l <> "quit")
      by (intros l Hl; apply Hq; now right).
    destruct ph as [|user_input]; cbn [Console.loop].
    + destruct (String.eqb_spec (Str.lower line) "quit") as [E|E];
        [|now apply IH].
      exfalso. apply (Hq line); [now left|exact E].
    + destruct (Console.int line) as [n|e] eqn:Eint.
      * destruct ((n =? 1)%Z || (n =? 2)%Z); [|now apply IH].
        destruct (turn_run env user_input n
                    (Console.print (Console.Input Console.number_prompt) c))
          as (mood & result & w & _ & _ & _ & Hturn).
        rewrite Hturn. now apply IH.
      * rewrite (int_raises line e Eint). now apply IH.
Qed.

End SessionFacts.


(** X16.  A round issues at least one search and at most five, whatever
    number was entered for the language and whatever the answers are. *)
Theorem turn_searches
  (env : Env) (user_input : string) (lang_choice : Z) (c : Console.t) :
  1 <= List.length
         (issued (Console.world c)
            (Console.world
               (snd (Console.turn env user_input lang_choice c))))
    <= 5.
Proof.
  destruct (turn_calls env user_input lang_choice c)
    as (mood & l & _ & Hl & _ & Hlen).
  now rewrite (issued_app _ _ l Hl).
Qed.

(** X17.  A round shows at most three songs, and the songs of a session
    are numbered from 1 to at most 3. *)
Theorem session_shows_three_songs_at_most
  (env : Env) (setup : result unit) (stdin : list string) :
  (forall user_input lang_choice c,
      List.length
        (filter Console.is_song
           (Console.shown (snd (Console.turn env user_input lang_choice c))))
      <= List.length (filter Console.is_song (Console.shown c)) + 3)
  /\ Forall (fun o =>
               match o with
               | Console.PrintSong i _ _ => 1 <= i <= 3
               | _ => True
               end)
            (Console.shown (Console.main env setup stdin)).
Proof.
  assert (Hrun : forall user_input lang_choice c,
             exists result,
               List.length result <= 3
               /\ Console.shown
                    (snd (Console.turn env user_input lang_choice c))
                  = Console.shown c
                    ++ [Console.Print
                          (Console.nl ++ "Detected mood: "
                           ++ match detect_mood app_py user_input with
                              | Return mood => mood
                              | Raise _ => ""
                              end);
                        Console.Print "Searching for songs..."]
                    ++ match result with
                       | _ :: _ =>
                           Console.Print Console.found_header
                           :: Console.show_songs 1 result
                       | [] => [Console.Print Console.nothing_found]
                       end
                    ++ [Console.Print Console.separator]).
  { intros user_input lang_choice c.
    destruct (turn_run env user_input lang_choice c)
      as (mood & result & w & _ & Hmood & Hget & Hturn).
    cbn zeta in *.
    destruct (run_summary env mood
                (if (lang_choice =? 1)%Z then "english" else "hindi")
                3 (Console.world c))
      as (result' & w' & l & Hget' & Hlen & _).
    rewrite Hget in Hget'. injection Hget' as <- <-.
    exists result. split; [lia|]. now rewrite Hturn, Hmood. }
  split.
  - intros user_input lang_choice c.
    destruct (Hrun user_input lang_choice c) as (result & Hlen & ->).
    rewrite !filter_app, !length_app.
    destruct result as [|song result]; cbn [filter Console.is_song].
    + cbn. lia.
    + rewrite (show_songs_count (song :: result) 1). cbn in *. lia.
  - unfold Console.main.
    set (c0 := Console.print _ _).
    set (ok := fun o =>
                 match o with
                 | Console.PrintSong i _ _ => 1 <= i <= 3
                 | _ => True
                 end).
    assert (H : Forall ok
                  (Console.shown
                     (snd (Console.loop env Console.AskMood stdin c0)))).
    { apply (loop_inv env (fun c => Forall ok (Console.shown c))).
      - intros c o (text & [-> | ->]) H; cbn [Console.print Console.shown];
          apply Forall_app; split; auto; repeat constructor.
      - intros c user_input lang_choice H.
        destruct (Hrun user_input lang_choice c) as (result & Hlen & ->).
        apply Forall_app. split; [exact H|].
        apply Forall_app. split; [repeat constructor|].
        apply Forall_app. split; [|repeat constructor].
        destruct result as [|song result]; [repeat constructor|].
        constructor; [exact I|].
        apply Forall_forall. intros o Ho.
        pose proof (show_songs_numbers (song :: result) 1 o Ho) as Hn.
        destruct o; try exact I. cbn. lia.
      - repeat constructor. }
    destruct setup as [[]|e].
    + destruct (Console.loop env Console.AskMood stdin c0) as [[e|] c1];
        cbn [snd] in H; [|exact H].
      cbn [Console.print Console.shown].
      rewrite <- app_assoc.
      apply Forall_app. split; [exact H|repeat constructor].
    + cbn. repeat constructor.
Qed.


(** X19.  "quit" (in any letter case) is the only way out: a session in
    which no line reads "quit" runs until the input ends and closes with
    the error and the advice. *)
Theorem session_without_quit (env : Env) (stdin : list string) :
  (forall line, In line stdin -> Str.lower line <> "quit") ->
  exists before,
    Console.shown (Console.main env (Return tt) stdin)
    = before ++ [Console.PrintError Console.EOFError;
                 Console.Print Console.remediation].
Proof.
  intros Hq. unfold Console.main.
  set (c0 := Console.print _ _).
  pose proof (loop_without_quit env stdin Hq Console.AskMood c0) as Heof.
  destruct (Console.loop env Console.AskMood stdin c0) as [r c1];
    cbn [fst] in Heof; subst r.
  exists (Console.shown c1).
  cbn [Console.print Console.shown]. now rewrite <- app_assoc.
Qed.

Lemma session_without_quit_witness :
  exists before,
    Console.shown (Console.main catalog_up (Return tt) ["so happy"; "two"; "2"])
    = before ++ [Console.PrintError Console.EOFError;
                 Console.Print Console.remediation].
Proof.
  apply (session_without_quit catalog_up ["so happy"; "two"; "2"]).
  intros line [<-|[<-|[<-|[]]]]; vm_compute; discriminate.
Defined.

(** X20.  When every search fails, no song is shown in the whole session:
    each round reports that nothing was found. *)
Theorem session_catalog_down
  (env : Env) (setup : result unit) (stdin : list string) :
  all_searches_fail env ->
  filter Console.is_song (Console.shown (Console.main env setup stdin)) = [].
Proof.
  intros Hfail. unfold Console.main.
  set (c0 := Console.print _ _).
  assert (H : filter Console.is_song
                (Console.shown
                   (snd (Console.loop env Console.AskMood stdin c0))) = []).
  { apply (loop_inv env
             (fun c => filter Console.is_song (Console.shown c) = [])).
    - intros c o (text & [-> | ->]) H; cbn [Console.print Console.shown];
        now rewrite filter_app, H.
    - intros c user_input lang_choice H.
      destruct (turn_run env user_input lang_choice c)
        as (mood & result & w & Hlabel & _ & Hget & Hturn).
      cbn zeta in *.
      destruct (table_pair mood
                  (if (lang_choice =? 1)%Z then "english" else "hindi")
                  Hlabel (chosen_language lang_choice)) as (terms & Hterms).
      unfold get_recommendations in Hget.
      rewrite (search_songs_all_fail env mood _ 3 terms
                 (Console.world c) Hfail Hterms) in Hget.
      injection Hget as <- _.
      rewrite Hturn. cbn [snd Console.shown].
      now rewrite !filter_app, H.
    - reflexivity. }
  destruct setup as [[]|e].
  - destruct (Console.loop env Console.AskMood stdin c0) as [[e|] c1];
      cbn [snd] in H; [|exact H].
    cbn [Console.print Console.shown].
    now rewrite <- app_assoc, filter_app, H.
  - reflexivity.
Qed.

Lemma session_catalog_down_witness :
  filter Console.is_song
    (Console.shown
       (Console.main catalog_down (Return tt) ["feeling low"; "1"; "quit"]))
  = [].
Proof.
  apply (session_catalog_down catalog_down (Return tt)
           ["feeling low"; "1"; "quit"]).
  intros k call. eexists. reflexivity.
Defined.

(* ================================================================== *)
(** ** The page of [st.py] *)

Section PageFacts.

Variable env : Env.

Lemma radio_language (w : Page.widgets) :
  In (Str.lower (Page.label (Page.radio w))) ["english"; "hindi"].
Proof. destruct (Page.radio w); cbn; tauto. Qed.

(** One run for a pair of the table: it returns, and issues one to five
    searches, all on the plan. *)
Lemma table_run (mood language : string) (st : State) :
  mood = "happy" \/ mood = "sad" ->
  In language ["english"; "hindi"] ->
  exists result st',
    get_recommendations env mood language 3 st = (Return result, st')
    /\ 1 <= List.length (issued st st') <= 5
    /\ Forall (on_plan mood language) (issued st st').
Proof.
  intros Hmood Hlanguage.
  destruct (run_summary env mood language 3 st)
    as (result & st' & l & Hrun & _ & Hl & Hok).
  exists result, st'. split; [exact Hrun|].
  rewrite (issued_app st st' l Hl).
  split; [|exact Hok].
  destruct (table_pair mood language Hmood Hlanguage) as (terms & Hterms).
  destruct (run_prefix env mood language 3 st terms Hterms) as (k & Hk & Hq).
  pose proof (search_terms_size mood language terms Hterms) as Hsize.
  unfold get_recommendations in Hrun. rewrite Hrun in Hq. cbn [snd] in Hq.
  rewrite (issued_app _ _ l Hl) in Hq.
  apply (f_equal (@List.length string)) in Hq.
  rewrite length_map, length_firstn in Hq. lia.
Qed.

(** The script on a text for the mood. *)
Lemma script_run (w : Page.widgets) (voice : Page.recognition) (st : State)
  (text : string) :
  Page.mood_text w voice = Return text ->
  text <> "" ->
  exists mood result st',
    (mood = "happy" \/ mood = "sad")
    /\ detect_mood st_py text = Return mood
    /\ get_recommendations env mood
         (Str.lower (Page.label (Page.radio w))) 3 st
       = (Return result, st')
    /\ 1 <= List.length (issued st st') <= 5
    /\ Forall (on_plan mood (Str.lower (Page.label (Page.radio w))))
              (issued st st')
    /\ fst (Page.script env w voice st) = (None, snd (fst (Page.script env w voice st)))
    /\ snd (Page.script env w voice st) = st'
    /\ In (Page.Write ("Detected mood: " ++ mood ++ " and language: "
                       ++ Str.lower (Page.label (Page.radio w))))
          (snd (fst (Page.script env w voice st))).
Proof.
  intros Htext Hne.
  destruct (detect_mood_label st_py text) as (mood & Hmood & Hlabel).
  destruct (table_run mood (Str.lower (Page.label (Page.radio w))) st
              Hlabel (radio_language w))
    as (result & st' & Hrun & Hcount & Hplan).
  exists mood, result, st'.
  split; [exact Hlabel|]. split; [exact Hmood|]. split; [exact Hrun|].
  split; [exact Hcount|]. split; [exact Hplan|].
  unfold Page.script, Page.mood_text in *.
  destruct (Page.microphone w).
  - destruct (Page.get_voice_input voice) as [heard r]. cbn [snd] in Htext.
    subst r.
    destruct (String.eqb_spec text "") as [E|_]; [contradiction|].
    rewrite Hmood, Hrun. cbn [fst snd].
    split; [reflexivity|]. split; [reflexivity|].
    apply in_or_app. right. apply in_or_app. right.
    apply in_or_app. right. apply in_or_app. left. now left.
  - injection Htext as <-.
    destruct (String.eqb_spec (Page.text_input w) "") as [E|_];
      [contradiction|].
    rewrite Hmood, Hrun. cbn [fst snd].
    split; [reflexivity|]. split; [reflexivity|].
    apply in_or_app. right. apply in_or_app. right.
    apply in_or_app. right. apply in_or_app. left. now left.
Qed.

End PageFacts.

(** X21.  The page searches exactly when there is a text for the mood
    (typed, or returned by [get_voice_input] when the microphone button
    was pressed).  With an empty text nothing is searched and nothing
    changes; with any other text one to five searches are issued, all
    for a pair of the configuration table, and no exception leaves the
    script. *)
Theorem page_searches
  (env : Env) (w : Page.widgets) (voice : Page.recognition) (st : State)
  (text : string) :
  Page.mood_text w voice = Return text ->
  fst (fst (Page.script env w voice st)) = None
  /\ (text = "" -> snd (Page.script env w voice st) = st)
  /\ (text <> "" ->
      1 <= List.length (issued st (snd (Page.script env w voice st))) <= 5
      /\ Forall Console.in_table
                (issued st (snd (Page.script env w voice st)))).
Proof.
  intros Htext.
  destruct (String.eqb_spec text "") as [E|E].
  - subst text. split; [|split; [|now intros H]].
    + unfold Page.script, Page.mood_text in *.
      destruct (Page.microphone w).
      * destruct (Page.get_voice_input voice) as [heard r].
        cbn [snd] in Htext. now subst r.
      * injection Htext as ->. reflexivity.
    + intros _. unfold Page.script, Page.mood_text in *.
      destruct (Page.microphone w).
      * destruct (Page.get_voice_input voice) as [heard r].
        cbn [snd] in Htext. now subst r.
      * injection Htext as ->. reflexivity.
  - destruct (script_run env w voice st text Htext E)
      as (mood & result & st' & Hlabel & _ & _ & Hcount & Hplan
          & Hnone & Hst & _).
    split; [now rewrite Hnone|]. split; [now intros H|].
    intros _. rewrite Hst. split; [exact Hcount|].
    revert Hplan. apply Forall_impl. intros call Hcall.
    exists mood, (Str.lower (Page.label (Page.radio w))).
    split; [|split; [apply radio_language|exact Hcall]].
    destruct Hlabel as [-> | ->]; cbn; tauto.
Qed.

Lemma page_searches_witness :
  fst (fst (Page.script catalog_up
              {| Page.text_input := "feeling blue"; Page.send := true;
                 Page.microphone := false; Page.radio := Page.Hindi |}
              Page.UnknownValueError start)) = None
  /\ 1 <= List.length
            (issued start
               (snd (Page.script catalog_up
                       {| Page.text_input := "feeling blue";
                          Page.send := true; Page.microphone := false;
                          Page.radio := Page.Hindi |}
                       Page.UnknownValueError start))) <= 5.
Proof.
  destruct (page_searches catalog_up
              {| Page.text_input := "feeling blue"; Page.send := true;
                 Page.microphone := false; Page.radio := Page.Hindi |}
              Page.UnknownValueError start "feeling blue" eq_refl)
    as (Hnone & _ & Hsome).
  split; [exact Hnone|].
  apply Hsome. discriminate.
Defined.

(** X22.  When the microphone button is pressed and the speech is not
    understood, the apology [get_voice_input] returns is taken for the
    user's words: the page reports the mood "happy" for it and searches
    happy songs in the language picked. *)
Theorem page_speech_not_understood
  (env : Env) (w : Page.widgets) (st : State) :
  Page.microphone w = true ->
  let language := Str.lower (Page.label (Page.radio w)) in
  let run := Page.script env w Page.UnknownValueError st in
  fst (fst run) = None
  /\ In (Page.Write
           "You said: Sorry, I didn't catch that. Could you repeat?")
        (snd (fst run))
  /\ In (Page.Write ("Detected mood: happy and language: " ++ language))
        (snd (fst run))
  /\ 1 <= List.length (issued st (snd run)) <= 5
  /\ Forall (on_plan "happy" language) (issued st (snd run)).
Proof.
  intros Hmic. cbn zeta.
  destruct (table_run env "happy" (Str.lower (Page.label (Page.radio w))) st
              (or_introl eq_refl) (radio_language w))
    as (result & st' & Hrun & Hcount & Hplan).
  unfold Page.script. rewrite Hmic.
  cbn [Page.get_voice_input].
  change (detect_mood st_py "Sorry, I didn't catch that. Could you repeat?")
    with (@Return string "happy").
  cbn [String.eqb Ascii.eqb Bool.eqb].
  rewrite Hrun. cbn [fst snd].
  split; [reflexivity|]. split; [|split; [|now split]].
  - apply in_or_app. right. apply in_or_app. right.
    apply in_or_app. left. now left.
  - apply in_or_app. right. apply in_or_app. right.
    apply in_or_app. right. apply in_or_app. left. now left.
Qed.

Lemma page_speech_not_understood_witness :
  In (Page.Write "Detected mood: happy and language: english")
     (snd (fst (Page.script catalog_down
                  {| Page.text_input := "so sad"; Page.send := false;
                     Page.microphone := true; Page.radio := Page.English |}
                  Page.UnknownValueError start))).
Proof.
  destruct (page_speech_not_understood catalog_down
              {| Page.text_input := "so sad"; Page.send := false;
                 Page.microphone := true; Page.radio := Page.English |}
              start eq_refl) as (_ & _ & H & _).
  exact H.
Defined.
